(** * CSV ingestion pipeline of the Upload page

    A shallow embedding of the column resolver, row normaliser, row filter,
    summary aggregator and retention step of [Upload.tsx]
    ([parseCSV] and [handleUpload]), together with the properties the
    specification states about them.

    Conventions of the model.
    - A JavaScript string is a [string]: a sequence of code units, here
      restricted to the 8-bit range (Latin-1).
    - A JavaScript number is an IEEE 754 binary64 value, modelled by the
      standard library's [spec_float] with precision 53 and maximal
      exponent 1024.
    - [undefined] and [null] are [None].
    - A raw CSV record (the object PapaParse hands over for one line) is an
      association list in [Object.keys] order. *)

From Stdlib Require Import Bool Arith ZArith NArith Lia List.
From Stdlib Require Import Ascii String.
From Stdlib Require Import Permutation Sorted.
From Stdlib Require Import Floats.SpecFloat.
Import ListNotations.

Local Open Scope string_scope.
Local Open Scope list_scope.

(* ================================================================== *)
(** * JavaScript strings *)
(* ================================================================== *)

Module JSString.

(** [WhiteSpace] and [LineTerminator] code units below 256: TAB, LF, VT, FF,
    CR, SP and NBSP.  These are what [String.prototype.trim] and
    [parseFloat] strip. *)
Definition isWhiteSpace (c : ascii) : bool :=
  let n := N_of_ascii c in
  ((9 <=? n) && (n <=? 13) || (n =? 32) || (n =? 160))%N.

(** [toLowerCase] on one code unit: [A-Z] and the Latin-1 capitals
    U+00C0..U+00DE (U+00D7, the multiplication sign, excepted) move up by
    32; everything else is unchanged. *)
Definition lowerChar (c : ascii) : ascii :=
  let n := N_of_ascii c in
  if ((65 <=? n) && (n <=? 90)
      || (192 <=? n) && (n <=? 222) && negb (n =? 215))%N
  then ascii_of_N (n + 32) else c.

(** [String.prototype.toLowerCase]. *)
Fixpoint toLowerCase (s : string) : string :=
  match s with
  | EmptyString => EmptyString
  | String c s' => String (lowerChar c) (toLowerCase s')
  end.

(** [String.prototype.startsWith]. *)
Fixpoint startsWith (s p : string) {struct p} : bool :=
  match p, s with
  | EmptyString, _ => true
  | String _ _, EmptyString => false
  | String a p', String b s' => Ascii.eqb a b && startsWith s' p'
  end.

(** [String.prototype.includes]: [p] occurs in [s] at some position. *)
Fixpoint includes (s p : string) : bool :=
  startsWith s p
  || match s with
     | EmptyString => false
     | String _ s' => includes s' p
     end.

(** [String.prototype.trimStart]. *)
Fixpoint trimStart (s : string) : string :=
  match s with
  | EmptyString => EmptyString
  | String c s' => if isWhiteSpace c then trimStart s' else s
  end.

(** [String.prototype.trimEnd]. *)
Fixpoint trimEnd (s : string) : string :=
  match s with
  | EmptyString => EmptyString
  | String c s' =>
      match trimEnd s' with
      | EmptyString => if isWhiteSpace c then EmptyString else String c EmptyString
      | t => String c t
      end
  end.

(** [String.prototype.trim]. *)
Definition trim (s : string) : string := trimEnd (trimStart s).

(** First and last code unit of a string, when it has one. *)
Definition firstChar (s : string) : option ascii :=
  match s with
  | EmptyString => None
  | String c _ => Some c
  end.

Fixpoint lastChar (s : string) : option ascii :=
  match s with
  | EmptyString => None
  | String c EmptyString => Some c
  | String _ s' => lastChar s'
  end.

(** A string neither starts nor ends with white space. *)
Definition trimmed (s : string) : Prop :=
  (forall c, firstChar s = Some c -> isWhiteSpace c = false) /\
  (forall c, lastChar s = Some c -> isWhiteSpace c = false).

End JSString.

Import JSString.

(* ================================================================== *)
(** * JavaScript numbers *)
(* ================================================================== *)

Module JSNumber.

Definition prec : Z := 53.
Definition emax : Z := 1024.

(** The Number type: binary64. *)
Definition number : Type := spec_float.

Definition NaN : number := S754_nan.
Definition zero : number := S754_zero false.

(** The Number value of an integer (round to nearest, ties to even). *)
Definition ofZ (z : Z) : number := binary_normalize prec emax z 0 false.
Definition ofNat (n : nat) : number := ofZ (Z.of_nat n).

(** [a + b] and [a / b] on Numbers. *)
Definition add (a b : number) : number := SFadd prec emax a b.
Definition div (a b : number) : number := SFdiv prec emax a b.

Definition isNaN (x : number) : bool :=
  match x with
  | S754_nan => true
  | _ => false
  end.

(** [ToBoolean] on a Number: [+0], [-0] and [NaN] are falsy. *)
Definition toBoolean (x : number) : bool :=
  match x with
  | S754_zero _ | S754_nan => false
  | _ => true
  end.

(** The Number value of [m * 10^e] for a non-negative integer [m], with the
    sign [neg]: exact integer arithmetic, then one rounding to nearest,
    ties to even. *)
Definition ofDecimal (neg : bool) (m e : Z) : number :=
  match m with
  | Zpos p =>
      if (0 <=? e)%Z
      then binary_round prec emax neg (p * Z.to_pos (10 ^ e)) 0
      else
        let '(q, e', l) := SFdiv_core_binary prec emax m 0 (10 ^ (- e)) 0 in
        binary_round_aux prec emax neg q e' l
  | _ => S754_zero neg
  end.

Definition isDigit (c : ascii) : bool :=
  let n := N_of_ascii c in ((48 <=? n) && (n <=? 57))%N.

Definition digitValue (c : ascii) : Z := (Z.of_N (N_of_ascii c) - 48)%Z.

(** Reads the longest run of [DecimalDigits] at the head of [s], continuing
    the value [acc] and the digit count [cnt]; returns the rest too. *)
Fixpoint readDigits (acc : Z) (cnt : nat) (s : string) : Z * nat * string :=
  match s with
  | String c s' =>
      if isDigit c
      then readDigits (10 * acc + digitValue c)%Z (S cnt) s'
      else (acc, cnt, s)
  | EmptyString => (acc, cnt, s)
  end.

(** An optional [+] or [-]. *)
Definition readSign (s : string) : bool * string :=
  match s with
  | String "+"%char s' => (false, s')
  | String "-"%char s' => (true, s')
  | _ => (false, s)
  end.

(** An optional [ExponentPart]: [e] or [E], an optional sign and at least
    one digit; anything else is not part of the literal and counts as an
    exponent of 0. *)
Definition readExponent (s : string) : Z :=
  match s with
  | String c s1 =>
      if (Ascii.eqb c "e" || Ascii.eqb c "E")%bool then
        let '(neg, s2) := readSign s1 in
        let '(v, n, _) := readDigits 0 0 s2 in
        match n with
        | O => 0%Z
        | S _ => if neg then (- v)%Z else v
        end
      else 0%Z
  | EmptyString => 0%Z
  end.

(** [parseFloat] on a string: leading white space is skipped, then the
    longest prefix that is a [StrDecimalLiteral] is converted; when there
    is none the result is [NaN]. *)
Definition parseFloat (s : string) : number :=
  let '(neg, s1) := readSign (trimStart s) in
  if startsWith s1 "Infinity" then S754_infinity neg
  else
    let '(ip, ni, s2) := readDigits 0 0 s1 in
    let '(m, nf, s3) :=
      match s2 with
      | String "."%char s' => readDigits ip 0 s'
      | _ => (ip, O, s2)
      end in
    match (ni + nf)%nat with
    | O => NaN
    | S _ => ofDecimal neg m (readExponent s3 - Z.of_nat nf)
    end.

(** [parseFloat] applied to a property read: [undefined] is first converted
    to the string ["undefined"]. *)
Definition parseFloatOf (v : option string) : number :=
  match v with
  | Some s => parseFloat s
  | None => parseFloat "undefined"
  end.

End JSNumber.

Import JSNumber.

(* ================================================================== *)
(** * The Upload page: [parseCSV] *)
(* ================================================================== *)

(** One line of the CSV as PapaParse delivers it with [header: true]: an
    object from header to raw text, here an association list whose order is
    that of [Object.keys]. *)
Definition RawRecord : Type := list (string * string).

(** [Object.keys(row)]. *)
Definition keys (row : RawRecord) : list string := map fst row.

(** [row[k]]: [undefined] when [row] has no property [k]. *)
Fixpoint get (row : RawRecord) (k : string) : option string :=
  match row with
  | [] => None
  | (k', v) :: row' => if String.eqb k' k then Some v else get row' k
  end.

(** [interface ParsedRow]. *)
Record ParsedRow : Type := mkParsedRow {
  equipment_name : string;
  equipment_type : string;
  flowrate : option number;
  pressure : option number;
  temperature : option number
}.

(** The sentinel of the two text fields. *)
Definition Unknown : string := "Unknown".

(** The callback of [keys.find]: some pattern, lowercased, occurs in the
    lowercased header. *)
Definition matchesAny (patterns : list string) (k : string) : bool :=
  existsb (fun p => includes (toLowerCase k) (toLowerCase p)) patterns.

(** [findColumn]; the source closes over [keys], the model takes it as an
    argument.  [undefined] is [None]. *)
Definition findColumn (keys : list string) (patterns : list string)
  : option string :=
  find (matchesAny patterns) keys.

(** The five synonym lists, as written at the call sites. *)
Definition namePatterns : list string := ["equipment name"; "name"; "equipment"].
Definition typePatterns : list string := ["type"; "equipment type"].
Definition flowPatterns : list string := ["flowrate"; "flow rate"; "flow"].
Definition pressPatterns : list string := ["pressure"; "press"].
Definition tempPatterns : list string := ["temperature"; "temp"].

(** The five locals [nameCol] ... [tempCol] of the row callback. *)
Record ColumnMapping : Type := mkColumnMapping {
  nameCol : option string;
  typeCol : option string;
  flowCol : option string;
  pressCol : option string;
  tempCol : option string
}.

Definition resolveColumns (keys : list string) : ColumnMapping :=
  {| nameCol := findColumn keys namePatterns;
     typeCol := findColumn keys typePatterns;
     flowCol := findColumn keys flowPatterns;
     pressCol := findColumn keys pressPatterns;
     tempCol := findColumn keys tempPatterns |}.

(** [ToBoolean] of a [string | undefined]: [undefined] and the empty string
    are falsy. *)
Definition truthy (v : option string) : bool :=
  match v with
  | Some s => negb (String.eqb s "")
  | None => false
  end.

(** [col ? row[col]?.trim() || 'Unknown' : 'Unknown']. *)
Definition textField (row : RawRecord) (col : option string) : string :=
  match col with
  | Some c =>
      if truthy col then
        let v := option_map trim (get row c) in
        if truthy v then match v with Some t => t | None => Unknown end
        else Unknown
      else Unknown
  | None => Unknown
  end.

(** [col ? parseFloat(row[col]) || null : null]. *)
Definition numberField (row : RawRecord) (col : option string)
  : option number :=
  match col with
  | Some c =>
      if truthy col then
        let x := parseFloatOf (get row c) in
        if toBoolean x then Some x else None
      else None
  | None => None
  end.

(** The object literal returned by the row callback, for given columns. *)
Definition normalizeRow (m : ColumnMapping) (row : RawRecord) : ParsedRow :=
  {| equipment_name := textField row (nameCol m);
     equipment_type := textField row (typeCol m);
     flowrate := numberField row (flowCol m);
     pressure := numberField row (pressCol m);
     temperature := numberField row (tempCol m) |}.

(** The callback of [data.map]: the columns are looked up again from the
    keys of each row. *)
Definition mapRow (row : RawRecord) : ParsedRow :=
  normalizeRow (resolveColumns (keys row)) row.

(** The callback of [.filter]:
    [row.equipment_name !== 'Unknown' || row.equipment_type !== 'Unknown']. *)
Definition keepRow (row : ParsedRow) : bool :=
  negb (String.eqb (equipment_name row) Unknown)
  || negb (String.eqb (equipment_type row) Unknown).

(** [mapped] in the [complete] callback. *)
Definition mapped (data : list RawRecord) : list ParsedRow :=
  filter keepRow (map mapRow data).

(** The part of the component state the [complete] callback sets. *)
Record ParseState : Type := mkParseState {
  parsedData : list ParsedRow;
  error : option string
}.

Definition complete (data : list RawRecord) : ParseState :=
  let rows := mapped data in
  match rows with
  | [] => {| parsedData := []; error := Some "upload.invalidFormat" |}
  | _ :: _ => {| parsedData := rows; error := None |}
  end.

(** The other strategy the specification describes: the columns are
    resolved once, from the header list of the file, and that one mapping
    is used for every row. *)
Definition mappedOncePerFile (headers : list string) (data : list RawRecord)
  : list ParsedRow :=
  let m := resolveColumns headers in
  filter keepRow (map (normalizeRow m) data).

(** The resolution order the specification words: synonyms are tried in
    list order, and the first synonym that some header contains selects the
    first header containing it. *)
Fixpoint findColumnBySynonym (keys : list string) (patterns : list string)
  : option string :=
  match patterns with
  | [] => None
  | p :: ps =>
      match find (fun k => includes (toLowerCase k) (toLowerCase p)) keys with
      | Some k => Some k
      | None => findColumnBySynonym keys ps
      end
  end.

(* ================================================================== *)
(** * The Upload page: summary statistics *)
(* ================================================================== *)

(** [parsedData.filter((d) => d.f !== null).map((d) => d.f!)].  The [!] is
    erased at run time; a [null] that reached the sum would count as [+0]. *)
Definition nonNull (f : ParsedRow -> option number) (rows : list ParsedRow)
  : list number :=
  map (fun d => match f d with Some x => x | None => zero end)
      (filter (fun d => match f d with Some _ => true | None => false end) rows).

(** [avg]: [arr.length > 0 ? arr.reduce((a, b) => a + b, 0) / arr.length : 0]. *)
Definition avg (arr : list number) : number :=
  if (0 <? List.length arr)%nat
  then div (fold_left add arr zero) (ofNat (List.length arr))
  else zero.

(** [typeDistribution[t] = (typeDistribution[t] || 0) + 1] on an object kept
    as an association list in insertion order. *)
Fixpoint bump (t : string) (dist : list (string * nat)) : list (string * nat) :=
  match dist with
  | [] => [(t, 1%nat)]
  | (k, n) :: dist' =>
      if String.eqb k t then (k, S n) :: dist' else (k, n) :: bump t dist'
  end.

Record Summary : Type := mkSummary {
  avgFlowrate : number;
  avgPressure : number;
  avgTemperature : number;
  typeDistribution : list (string * nat)
}.

Definition summarize (rows : list ParsedRow) : Summary :=
  {| avgFlowrate := avg (nonNull flowrate rows);
     avgPressure := avg (nonNull pressure rows);
     avgTemperature := avg (nonNull temperature rows);
     typeDistribution :=
       fold_left (fun dist d => bump (equipment_type d) dist) rows [] |}.

(** The specification's wording of an average: the sum of the non-null
    values of a field over the rows, taken in row order from 0, and the
    number of such values. *)
Fixpoint sumNonNull (f : ParsedRow -> option number) (acc : number)
  (rows : list ParsedRow) : number :=
  match rows with
  | [] => acc
  | d :: rows' =>
      match f d with
      | Some x => sumNonNull f (add acc x) rows'
      | None => sumNonNull f acc rows'
      end
  end.

Fixpoint countNonNull (f : ParsedRow -> option number) (rows : list ParsedRow)
  : nat :=
  match rows with
  | [] => O
  | d :: rows' =>
      match f d with
      | Some _ => S (countNonNull f rows')
      | None => countNonNull f rows'
      end
  end.

Definition specAvg (f : ParsedRow -> option number) (rows : list ParsedRow)
  : number :=
  match countNonNull f rows with
  | O => zero
  | S _ as n => div (sumNonNull f zero rows) (ofNat n)
  end.

(* ================================================================== *)
(** * The store *)
(* ================================================================== *)

(** A row of [public.uploads]. *)
Module Uploads.
Record row : Type := mkRow {
  id : N;
  user_id : N;
  filename : string;
  record_count : nat;
  summary : option Summary;
  created_at : Z
}.
End Uploads.

(** A row of [public.equipment_data]; the two text columns are declared
    [NOT NULL], the three numeric ones are nullable. *)
Module EquipmentData.
Record row : Type := mkRow {
  upload_id : N;
  user_id : N;
  equipment_name : string;
  equipment_type : string;
  flowrate : option number;
  pressure : option number;
  temperature : option number
}.
End EquipmentData.

Record Database : Type := mkDatabase {
  uploads : list Uploads.row;
  equipment_data : list EquipmentData.row
}.

(** Column declarations of [CREATE TABLE public.equipment_data]. *)
Record Column : Type := mkColumn {
  column_name : string;
  column_type : string;
  not_null : bool
}.

Definition equipment_data_columns : list Column :=
  [ mkColumn "id" "UUID" true;
    mkColumn "upload_id" "UUID" true;
    mkColumn "user_id" "UUID" true;
    mkColumn "equipment_name" "TEXT" true;
    mkColumn "equipment_type" "TEXT" true;
    mkColumn "flowrate" "NUMERIC" false;
    mkColumn "pressure" "NUMERIC" false;
    mkColumn "temperature" "NUMERIC" false;
    mkColumn "created_at" "TIMESTAMP WITH TIME ZONE" true ].

Definition declaredNotNull (cols : list Column) (name : string) : bool :=
  match find (fun c => String.eqb (column_name c) name) cols with
  | Some c => not_null c
  | None => false
  end.

(** What the store answers during one run of [handleUpload]: whether each
    of the four calls succeeds, and the id and timestamp the store gives
    the inserted upload ([gen_random_uuid()], [now()]). *)
Record StoreReplies : Type := mkStoreReplies {
  selectOk : bool;
  deleteOk : bool;
  insertUploadOk : bool;
  insertRowsOk : bool;
  newId : N;
  now : Z
}.

(** Uploads of one user. *)
Definition uploadsOf (uid : N) (db : Database) : list Uploads.row :=
  filter (fun u => N.eqb (Uploads.user_id u) uid) (uploads db).

(** [ORDER BY created_at DESC], as a stable insertion sort; the store does
    not fix the order of rows with equal timestamps. *)
Fixpoint insertDesc (u : Uploads.row) (l : list Uploads.row)
  : list Uploads.row :=
  match l with
  | [] => [u]
  | v :: l' =>
      if (Uploads.created_at u <? Uploads.created_at v)%Z
      then v :: insertDesc u l'
      else u :: l
  end.

Definition orderByCreatedAtDesc (l : list Uploads.row) : list Uploads.row :=
  fold_right insertDesc [] l.

(** [from('uploads').select('id').eq('user_id', uid)
      .order('created_at', { ascending: false })]: [data] is [null] when
    the call fails. *)
Definition selectUploadIds (ok : bool) (uid : N) (db : Database)
  : option (list N) :=
  if ok
  then Some (map Uploads.id (orderByCreatedAtDesc (uploadsOf uid db)))
  else None.

(** [from('uploads').delete().in('id', ids)] issued by user [uid]: the
    row-level policy lets a user delete own uploads only, and the rows of
    [equipment_data] go with their upload ([ON DELETE CASCADE]).  A failed
    call changes nothing. *)
Definition deleted (uid : N) (ids : list N) (u : Uploads.row) : bool :=
  N.eqb (Uploads.user_id u) uid && existsb (N.eqb (Uploads.id u)) ids.

Definition deleteUploads (ok : bool) (uid : N) (ids : list N) (db : Database)
  : Database :=
  if ok then
    {| uploads := filter (fun u => negb (deleted uid ids u)) (uploads db);
       equipment_data :=
         filter (fun e =>
                   negb (existsb (fun u => deleted uid ids u
                                           && N.eqb (Uploads.id u)
                                                    (EquipmentData.upload_id e))
                                 (uploads db)))
                (equipment_data db) |}
  else db.

(** The [File] handed to the page. *)
Record File : Type := mkFile {
  name : string;
  size : N
}.

(** How [handleUpload] ends: the early [return], the success toast with the
    navigation to the new upload, or the error toast of the [catch]. *)
Inductive Outcome : Type :=
  | Skipped
  | Succeeded (uploadId : N)
  | Failed.

(** The row the store creates for
    [insert({ user_id, filename, record_count, summary })]: the store adds
    the id and the creation time. *)
Definition insertedUpload (env : StoreReplies) (uid : N) (f : File)
  (parsedData : list ParsedRow) : Uploads.row :=
  {| Uploads.id := newId env;
     Uploads.user_id := uid;
     Uploads.filename := name f;
     Uploads.record_count := List.length parsedData;
     Uploads.summary := Some (summarize parsedData);
     Uploads.created_at := now env |}.

(** [equipmentRecords]. *)
Definition equipmentRecords (uploadData : Uploads.row) (uid : N)
  (parsedData : list ParsedRow) : list EquipmentData.row :=
  map (fun r =>
         {| EquipmentData.upload_id := Uploads.id uploadData;
            EquipmentData.user_id := uid;
            EquipmentData.equipment_name := equipment_name r;
            EquipmentData.equipment_type := equipment_type r;
            EquipmentData.flowrate := flowrate r;
            EquipmentData.pressure := pressure r;
            EquipmentData.temperature := temperature r |})
      parsedData.

(** The retention step of [handleUpload]: the query, and the delete when
    there are five uploads or more.  Neither [error] is looked at; a failed
    query leaves [existingUploads] null. *)
Definition retention (env : StoreReplies) (uid : N) (db : Database)
  : Database :=
  let existingUploads := selectUploadIds (selectOk env) uid db in
  match existingUploads with
  | Some ids =>
      if (5 <=? List.length ids)%nat
      then
        let toDelete := skipn 4 ids in
        deleteUploads (deleteOk env) uid toDelete db
      else db
  | None => db
  end.

(** [handleUpload], with the store passed through explicitly. *)
Definition handleUpload (env : StoreReplies) (user : option N)
  (file : option File) (parsedData : list ParsedRow) (db : Database)
  : Database * Outcome :=
  match user, file, parsedData with
  | Some uid, Some f, _ :: _ =>
      (* Delete old uploads if more than 5 *)
      let db1 := retention env uid db in
      (* Create upload record *)
      if insertUploadOk env then
        let uploadData := insertedUpload env uid f parsedData in
        let db2 :=
          {| uploads := uploads db1 ++ [uploadData];
             equipment_data := equipment_data db1 |} in
        (* Insert equipment data *)
        if insertRowsOk env then
          ({| uploads := uploads db2;
              equipment_data :=
                equipment_data db2 ++ equipmentRecords uploadData uid parsedData |},
           Succeeded (Uploads.id uploadData))
        else (db2, Failed)
      else (db1, Failed)
  | _, _, _ => (db, Skipped)
  end.

(* ================================================================== *)
(** * Vocabulary of the specification *)
(* ================================================================== *)

(** The five canonical fields, their synonym lists and their entry in a
    column mapping. *)
Inductive CanonicalField : Type :=
  | FName | FType | FFlowrate | FPressure | FTemperature.

Definition patternsOf (f : CanonicalField) : list string :=
  match f with
  | FName => namePatterns
  | FType => typePatterns
  | FFlowrate => flowPatterns
  | FPressure => pressPatterns
  | FTemperature => tempPatterns
  end.

Definition column (m : ColumnMapping) (f : CanonicalField) : option string :=
  match f with
  | FName => nameCol m
  | FType => typeCol m
  | FFlowrate => flowCol m
  | FPressure => pressCol m
  | FTemperature => tempCol m
  end.

(** [k] is the first element of [l], in list order, that satisfies [P]. *)
Definition firstSuchThat {A : Type} (P : A -> bool) (l : list A) (k : A)
  : Prop :=
  exists pre post,
    l = pre ++ k :: post /\ P k = true /\ Forall (fun x => P x = false) pre.

(** A header whose lowercased text contains ["flow"]. *)
Definition containsFlow (k : string) : bool := includes (toLowerCase k) "flow".

(** A key made of decimal digits only.  The array-index keys, which
    [Object.keys] lists first whatever their creation order, are of this
    kind. *)
Fixpoint digitsOnly (s : string) : bool :=
  match s with
  | EmptyString => true
  | String c s' => isDigit c && digitsOnly s'
  end.

Definition named (k : string) : bool := negb (digitsOnly k).

(** [keys] can be the [Object.keys] order of a record whose properties were
    created in the order [headers] of the file: the keys that are not digit
    strings come in creation order. *)
Definition keysInHeaderOrder (headers keys : list string) : Prop :=
  filter named keys = filter named headers.

(** Every code unit of a string is white space (so also: the string is
    empty). *)
Fixpoint allWhiteSpace (s : string) : bool :=
  match s with
  | EmptyString => true
  | String c s' => isWhiteSpace c && allWhiteSpace s'
  end.

(** The raw text of a canonical field in a record: the value under the
    resolved header, if the field is mapped and the record has it. *)
Definition rawText (row : RawRecord) (f : CanonicalField) : option string :=
  match column (resolveColumns (keys row)) f with
  | Some c => get row c
  | None => None
  end.

(** A text field as the specification words it: the sentinel for a
    missing, empty or white-space-only raw value, the trimmed value
    otherwise. *)
Definition textValue (raw : option string) : string :=
  match raw with
  | Some v => if allWhiteSpace v then Unknown else trim v
  | None => Unknown
  end.

(** Both identity fields of a row are the sentinel. *)
Definition bothUnknown (r : ParsedRow) : Prop :=
  equipment_name r = Unknown /\ equipment_type r = Unknown.

(** [ORDER BY created_at DESC] as a property of a list of uploads. *)
Definition newestFirst (l : list Uploads.row) : Prop :=
  StronglySorted (fun u v => (Uploads.created_at v <= Uploads.created_at u)%Z) l.

(** The uploads a query returned, newest first, for one user. *)
Definition existing (uid : N) (db : Database) : list Uploads.row :=
  orderByCreatedAtDesc (uploadsOf uid db).

(** The store after a run of [handleUpload] for a signed-in user with a
    file, and how the run ended. *)
Definition storeAfter (env : StoreReplies) (uid : N) (f : File)
  (rows : list ParsedRow) (db : Database) : Database :=
  fst (handleUpload env (Some uid) (Some f) rows db).

Definition outcomeOf (env : StoreReplies) (uid : N) (f : File)
  (rows : list ParsedRow) (db : Database) : Outcome :=
  snd (handleUpload env (Some uid) (Some f) rows db).

(** A list of uploads without the rows of a given id. *)
Definition removeById (i : N) (l : list Uploads.row) : list Uploads.row :=
  filter (fun u => negb (N.eqb (Uploads.id u) i)) l.

(** The primary key of [public.uploads]: no two rows share an id. *)
Definition uniqueIds (db : Database) : Prop :=
  NoDup (map Uploads.id (uploads db)).

(* ================================================================== *)
(** * Sample inputs *)
(* ================================================================== *)

Definition plantHeaders : list string :=
  ["Equipment Name"; "Outlet FLOW (m3/h)"; "Flowrate"].

(** A header list where an id column precedes the name column. *)
Definition idFirstHeaders : list string :=
  ["Equipment ID"; "Equipment Name"; "Type"].

(** A header list with one column for the equipment type only. *)
Definition typeOnlyHeaders : list string := ["Equipment Type"; "Flow"].

(** The line of the specification's end-to-end example. *)
Definition pump1 : RawRecord :=
  [("Equipment Name", "Pump-1"); ("Type", "Centrifugal");
   ("Flow Rate", "12.5"); ("Pressure", "3.2"); ("Temp", "80")].

(** The same line with white space around the cells. *)
Definition paddedPump1 : RawRecord :=
  [("Equipment Name", "  Pump-1"); ("Type", "Centrifugal  ");
   ("Flow Rate", " 12.5 "); ("Pressure", "3.2   "); ("Temp", "   80")].

(** A reading of zero. *)
Definition zeroFlowRecord : RawRecord :=
  [("Equipment Name", "Pump-1"); ("Flow Rate", "0"); ("Temp", "0.0")].

(** Rows that differ in their flowrate only. *)
Definition withFlowrate (x : option number) : ParsedRow :=
  {| equipment_name := "Pump"; equipment_type := "Centrifugal";
     flowrate := x; pressure := None; temperature := None |}.

(** A store where user 1 has five uploads and user 2 has one. *)
Definition upload (i uid : N) (t : Z) : Uploads.row :=
  {| Uploads.id := i; Uploads.user_id := uid; Uploads.filename := "data.csv";
     Uploads.record_count := 1; Uploads.summary := None;
     Uploads.created_at := t |}.

Definition fullStore : Database :=
  {| uploads := [upload 1 1 30; upload 2 1 10; upload 3 2 5;
                 upload 4 1 50; upload 5 1 20; upload 6 1 40];
     equipment_data := [] |}.

Definition sampleFile : File := {| name := "new.csv"; size := 120 |}.

(** Rows of three types. *)
Definition ofType (t : string) : ParsedRow :=
  {| equipment_name := "Unknown"; equipment_type := t;
     flowrate := None; pressure := None; temperature := None |}.

Definition pumpsAndValve : list ParsedRow :=
  [ofType "Pump"; ofType "Valve"; ofType "Pump"].

Definition allOk : StoreReplies :=
  {| selectOk := true; deleteOk := true; insertUploadOk := true;
     insertRowsOk := true; newId := 7; now := 60 |}.

Definition rowsFail : StoreReplies :=
  {| selectOk := true; deleteOk := true; insertUploadOk := true;
     insertRowsOk := false; newId := 7; now := 60 |}.

Definition insertFails : StoreReplies :=
  {| selectOk := true; deleteOk := true; insertUploadOk := false;
     insertRowsOk := true; newId := 7; now := 60 |}.

Definition queryFails : StoreReplies :=
  {| selectOk := false; deleteOk := true; insertUploadOk := true;
     insertRowsOk := true; newId := 7; now := 60 |}.

(** Two lines of one file, with the same headers. *)
Definition twoPumps : list RawRecord :=
  [ [("Equipment Name", "Pump-1"); ("Type", "Centrifugal");
     ("Flow Rate", "12.5"); ("Pressure", "3.2"); ("Temp", "80")];
    [("Equipment Name", " Pump-2 "); ("Type", "");
     ("Flow Rate", "n/a"); ("Pressure", "1e1"); ("Temp", "")] ].

Definition twoPumpsHeaders : list string :=
  ["Equipment Name"; "Type"; "Flow Rate"; "Pressure"; "Temp"].

(* ================================================================== *)
(** * The Upload page: [handleFile] *)
(* ================================================================== *)

(** [String.prototype.endsWith]. *)
Fixpoint endsWith (s p : string) : bool :=
  String.eqb s p
  || match s with
     | EmptyString => false
     | String _ s' => endsWith s' p
     end.

(** [10 * 1024 * 1024]. *)
Definition maxFileSize : N := 10 * 1024 * 1024.

(** What [handleFile] does with a file: it sets an error message and
    returns, or it keeps the file and starts [parseCSV]. *)
Inductive FileCheck : Type :=
  | Rejected (message : string)
  | Parsing.

Definition handleFile (file : File) : FileCheck :=
  if negb (endsWith (name file) ".csv") then Rejected "upload.invalidFormat"
  else if (maxFileSize <? size file)%N then Rejected "upload.fileTooLarge"
  else Parsing.

(* ================================================================== *)
(** * The pages that read and clear the store *)
(* ================================================================== *)

(** [from('uploads').select('*').eq('user_id', uid)
      .order('created_at', { ascending: false })]: [data] is [null] when
    the call fails. *)
Definition selectUploads (ok : bool) (uid : N) (db : Database)
  : option (list Uploads.row) :=
  if ok then Some (orderByCreatedAtDesc (uploadsOf uid db)) else None.

(** [data || []]. *)
Definition orEmpty {A : Type} (data : option (list A)) : list A :=
  match data with
  | Some l => l
  | None => []
  end.

(** The equipment rows a user may read: the row-level policy of
    [equipment_data] shows a user own rows only. *)
Definition equipmentOf (uid : N) (db : Database) : list EquipmentData.row :=
  filter (fun e => N.eqb (EquipmentData.user_id e) uid) (equipment_data db).

Module History.

(** [fetchUploads]: the list the page shows. *)
Definition fetchUploads (ok : bool) (uid : N) (db : Database)
  : list Uploads.row :=
  orEmpty (selectUploads ok uid db).

(** [deleteUpload]: [delete().eq('id', id)], whose result is not looked at,
    then [fetchUploads]; gives the store and the list shown afterwards. *)
Definition deleteUpload (deleteOk fetchOk : bool) (uid id : N) (db : Database)
  : Database * list Uploads.row :=
  let db' := deleteUploads deleteOk uid [id] db in
  (db', fetchUploads fetchOk uid db').

End History.

Module Visualization.

(** [fetchUploads]: the list of uploads and the selected upload it leaves
    in the state, given the selection so far. *)
Definition fetchUploads (ok : bool) (uid : N) (selectedUpload : option N)
  (db : Database) : list Uploads.row * option N :=
  let uploadsData := selectUploads ok uid db in
  (orEmpty uploadsData,
   match selectedUpload, uploadsData with
   | None, Some (u :: _) => Some (Uploads.id u)
   | _, _ => selectedUpload
   end).

(** [fetchData]: [from('equipment_data').select('*').eq('upload_id', id)],
    in table order, [data || []]. *)
Definition fetchData (ok : bool) (uid uploadId : N) (db : Database)
  : list EquipmentData.row :=
  if ok
  then filter (fun e => N.eqb (EquipmentData.upload_id e) uploadId)
              (equipmentOf uid db)
  else [].

(** [uploads.find((u) => u.id === selectedUpload)]. *)
Definition currentUpload (uploadList : list Uploads.row)
  (selectedUpload : option N) : option Uploads.row :=
  match selectedUpload with
  | Some i => find (fun u => N.eqb (Uploads.id u) i) uploadList
  | None => None
  end.

(** [ToBoolean] of a [number | null]. *)
Definition truthyReading (x : option number) : bool :=
  match x with
  | Some v => toBoolean v
  | None => false
  end.

(** The points of the scatter chart:
    [data.filter(d => d.pressure && d.flowrate)
         .map(d => ({ x: d.flowrate!, y: d.pressure! }))]. *)
Definition scatterPoints (data : list EquipmentData.row)
  : list (number * number) :=
  map (fun d =>
         (match EquipmentData.flowrate d with Some x => x | None => zero end,
          match EquipmentData.pressure d with Some y => y | None => zero end))
      (filter (fun d => truthyReading (EquipmentData.pressure d)
                        && truthyReading (EquipmentData.flowrate d))
              data).

End Visualization.

Module Dashboard.

(** [interface DashboardStats]. *)
Record DashboardStats : Type := mkDashboardStats {
  totalUploads : nat;
  totalEquipment : nat;
  lastUploadDate : option Z
}.

(** [fetchDashboardData]: the statistics and the recent uploads it sets,
    or nothing when one of its two queries fails and the [catch] leaves
    the state as it was. *)
Definition fetchDashboardData (uploadsOk equipmentOk : bool) (uid : N)
  (db : Database) : option (DashboardStats * list Uploads.row) :=
  match option_map (firstn 5) (selectUploads uploadsOk uid db) with
  | Some recent =>
      if equipmentOk then
        let equipmentCount := List.length (equipmentOf uid db) in
        Some ({| totalUploads := List.length recent;
                 totalEquipment := equipmentCount;
                 lastUploadDate :=
                   match recent with
                   | u :: _ => Some (Uploads.created_at u)
                   | [] => None
                   end |},
              recent)
      else None
  | None => None
  end.

End Dashboard.

Module Settings.

(** [from('equipment_data').delete().eq('user_id', uid)]. *)
Definition deleteEquipmentOf (ok : bool) (uid : N) (db : Database)
  : Database :=
  if ok then
    {| uploads := uploads db;
       equipment_data :=
         filter (fun e => negb (N.eqb (EquipmentData.user_id e) uid))
                (equipment_data db) |}
  else db.

(** [from('uploads').delete().eq('user_id', uid)], with the cascade to the
    equipment rows of the deleted uploads. *)
Definition deleteUploadsOf (ok : bool) (uid : N) (db : Database) : Database :=
  if ok then
    {| uploads :=
         filter (fun u => negb (N.eqb (Uploads.user_id u) uid)) (uploads db);
       equipment_data :=
         filter (fun e =>
                   negb (existsb (fun u => N.eqb (Uploads.user_id u) uid
                                           && N.eqb (Uploads.id u)
                                                    (EquipmentData.upload_id e))
                                 (uploads db)))
                (equipment_data db) |}
  else db.

(** [handleDeleteAllData]: the two deletes in turn; neither result is
    looked at. *)
Definition handleDeleteAllData (equipmentOk uploadsOk : bool) (uid : N)
  (db : Database) : Database :=
  deleteUploadsOf uploadsOk uid (deleteEquipmentOf equipmentOk uid db).

(** The two counts of [loadDataStats]: [count || 0] of each query. *)
Definition loadDataStats (uploadsOk equipmentOk : bool) (uid : N)
  (db : Database) : nat * nat :=
  ((if uploadsOk then List.length (uploadsOf uid db) else O),
   (if equipmentOk then List.length (equipmentOf uid db) else O)).

End Settings.

(** [Array.prototype.join] on strings. *)
Fixpoint join (sep : string) (l : list string) : string :=
  match l with
  | [] => EmptyString
  | [a] => a
  | a :: l' => (a ++ sep ++ join sep l')%string
  end.

Definition comma : ascii := ","%char.
Definition newline : ascii := ascii_of_nat 10.

(** A property of a row read back from the store, as [convertToCSV] sees
    it: [null] or [undefined], a text, or a number. *)
Inductive Cell : Type :=
  | CNull
  | CText (s : string)
  | CNumber (x : number).

Section CsvExport.

(** [Number.prototype.toString], which [join] applies to a number. *)
Variable numberToString : number -> string.

(** [row[h] ?? ''], as [join] writes it. *)
Definition cellText (c : Cell) : string :=
  match c with
  | CNull => EmptyString
  | CText s => s
  | CNumber x => numberToString x
  end.

(** [headers] of [convertToCSV]. *)
Definition exportHeaders : list string :=
  ["equipment_name"; "equipment_type"; "flowrate"; "pressure"; "temperature";
   "created_at"].

(** [headers.map(h => row[h] ?? '').join(',')]. *)
Definition exportLine (row : string -> Cell) : string :=
  join (String comma EmptyString) (map (fun h => cellText (row h)) exportHeaders).

(** [convertToCSV] of the Settings page. *)
Definition convertToCSV (data : list (string -> Cell)) : string :=
  match data with
  | [] => EmptyString
  | _ :: _ =>
      let rows := map exportLine data in
      join (String newline EmptyString)
           (join (String comma EmptyString) exportHeaders :: rows)
  end.

End CsvExport.

(** The number of occurrences of a code unit in a string, and in the cells
    of a row. *)
Fixpoint countChar (c : ascii) (s : string) : nat :=
  match s with
  | EmptyString => O
  | String a s' => ((if Ascii.eqb a c then 1 else 0) + countChar c s')%nat
  end.

Definition countInCells (numberToString : number -> string) (c : ascii)
  (row : string -> Cell) : nat :=
  list_sum (map (fun h => countChar c (cellText numberToString (row h)))
                exportHeaders).



(** The pairs of readings of the stored rows that have both a flowrate and
    a pressure. *)
Definition storedPairs (data : list EquipmentData.row)
  : list (number * number) :=
  flat_map (fun d =>
              match EquipmentData.flowrate d, EquipmentData.pressure d with
              | Some x, Some y => [(x, y)]
              | _, _ => []
              end)
           data.

(** No reading of a stored row is falsy: each is null or a number other
    than 0 and NaN. *)
Definition readingsTruthy (d : EquipmentData.row) : Prop :=
  forall x, EquipmentData.flowrate d = Some x
            \/ EquipmentData.pressure d = Some x
            \/ EquipmentData.temperature d = Some x ->
            toBoolean x = true.

(** A reading that reaches the store as it is: null or a finite number
    (the request body is JSON, which writes NaN and the infinities as
    null). *)
Definition carried (x : option number) : bool :=
  match x with
  | Some (S754_infinity _) | Some S754_nan => false
  | _ => true
  end.

Definition carriedRow (r : ParsedRow) : bool :=
  carried (flowrate r) && carried (pressure r) && carried (temperature r).

(* ================================================================== *)
(** * Vocabulary for the type distribution and the store *)
(* ================================================================== *)

(** The members every object inherits from [Object.prototype].  For such a
    name the read [typeDistribution[t]] finds the inherited member, not
    [undefined]; the association list of [bump] stands for the object on
    all other names. *)
Definition inheritedNames : list string :=
  ["constructor"; "__defineGetter__"; "__defineSetter__"; "hasOwnProperty";
   "__lookupGetter__"; "__lookupSetter__"; "isPrototypeOf";
   "propertyIsEnumerable"; "toString"; "valueOf"; "__proto__";
   "toLocaleString"].

Definition plainName (t : string) : bool :=
  negb (existsb (String.eqb t) inheritedNames).

(** [dist[t]], with 0 for a missing key. *)
Fixpoint countOf (t : string) (dist : list (string * nat)) : nat :=
  match dist with
  | [] => O
  | (k, n) :: dist' => if String.eqb k t then n else countOf t dist'
  end.

(** The number of rows of a given type. *)
Definition rowsOfType (t : string) (rows : list ParsedRow) : nat :=
  List.length (filter (fun d => String.eqb (equipment_type d) t) rows).

(** The foreign key of [equipment_data.upload_id]: every row belongs to an
    upload of the table. *)
Definition referencesHold (db : Database) : Prop :=
  forall e, In e (equipment_data db) ->
            exists u, In u (uploads db)
                      /\ Uploads.id u = EquipmentData.upload_id e.

(** The equipment rows of one upload, in table order. *)
Definition rowsOfUpload (i : N) (db : Database) : list EquipmentData.row :=
  filter (fun e => N.eqb (EquipmentData.upload_id e) i) (equipment_data db).

(** An id no row of the store uses yet. *)
Definition freshId (i : N) (db : Database) : Prop :=
  ~ In i (map Uploads.id (uploads db))
  /\ ~ In i (map EquipmentData.upload_id (equipment_data db)).

(** The sum of the counts of a distribution. *)
Definition totalCount (dist : list (string * nat)) : nat :=
  fold_right (fun kn acc => (snd kn + acc)%nat) O dist.

(** The two stages of [parseFloat] after the leading white space: the
    optional fraction, and the literal as a whole. *)
Definition fraction (ip : Z) (s2 : string) : Z * nat * string :=
  match s2 with
  | String "."%char s' => readDigits ip 0 s'
  | _ => (ip, O, s2)
  end.

Definition parseLiteral (s0 : string) : number :=
  let '(neg, s1) := readSign s0 in
  if startsWith s1 "Infinity" then S754_infinity neg
  else
    let '(ip, ni, s2) := readDigits 0 0 s1 in
    let '(m, nf, s3) := fraction ip s2 in
    match (ni + nf)%nat with
    | O => NaN
    | S _ => ofDecimal neg m (readExponent s3 - Z.of_nat nf)
    end.

(** A string that is empty or starts with white space: what may follow a
    numeric literal without being read as part of it. *)
Definition whiteHead (b : string) : bool :=
  match b with
  | EmptyString => true
  | String c _ => isWhiteSpace c
  end.

(** Two records with the same keys whose values agree once trimmed. *)
Definition sameTrimmed (row row' : RawRecord) : Prop :=
  Forall2 (fun kv kv' => fst kv = fst kv' /\ trim (snd kv) = trim (snd kv'))
          row row'.

(* ================================================================== *)
(** * Facts about strings *)
(* ================================================================== *)

Section StringFacts.

Lemma startsWith_app (s p : string) :
  startsWith s p = true <-> exists b, s = (p ++ b)%string.
Proof.
  revert s; induction p as [|a p IH]; intros s; simpl.
  - split; [intros _; now exists s | reflexivity].
  - destruct s as [|c s]; simpl.
    + split; [discriminate | intros [b Hb]; discriminate].
    + rewrite andb_true_iff, Ascii.eqb_eq, IH. split.
      * intros [-> [b ->]]. now exists b.
      * intros [b Hb]. injection Hb as -> ->. split; [reflexivity | now exists b].
Qed.

Lemma includes_app (s p : string) :
  includes s p = true <-> exists a b, s = (a ++ p ++ b)%string.
Proof.
  induction s as [|c s IH].
  - simpl. rewrite orb_false_r, startsWith_app. split.
    + intros [b Hb]. now exists "", b.
    + intros [a [b Hab]]. destruct a; simpl in Hab.
      * now exists b.
      * discriminate.
  - cbn [includes]. rewrite orb_true_iff, startsWith_app, IH. split.
    + intros [[b Hb] | [a [b Hab]]].
      * now exists "", b.
      * exists (String c a), b. simpl. now rewrite Hab.
    + intros [a [b Hab]]. destruct a as [|c' a]; simpl in Hab.
      * left. now exists b.
      * right. injection Hab as -> ->. now exists a, b.
Qed.

Lemma string_app_assoc (a b c : string) :
  ((a ++ b) ++ c = a ++ b ++ c)%string.
Proof. induction a as [|x a IH]; simpl; [reflexivity | now rewrite IH]. Qed.

(** A string that contains [p] contains every substring of [p]. *)
Lemma includes_trans (s p q : string) :
  includes s p = true -> includes p q = true -> includes s q = true.
Proof.
  rewrite !includes_app. intros [a [b ->]] [a' [b' ->]].
  exists (a ++ a')%string, (b' ++ b)%string. now rewrite !string_app_assoc.
Qed.

Lemma trimStart_first (s : string) (c : ascii) :
  firstChar (trimStart s) = Some c -> isWhiteSpace c = false.
Proof.
  induction s as [|a s IH]; simpl; [discriminate |].
  destruct (isWhiteSpace a) eqn:Ha; [exact IH |].
  simpl. intros [= <-]. exact Ha.
Qed.

Lemma trimEnd_first (s : string) (c : ascii) :
  firstChar (trimEnd s) = Some c -> firstChar s = Some c.
Proof.
  destruct s as [|a s]; simpl; [discriminate |].
  destruct (trimEnd s); [destruct (isWhiteSpace a) |]; simpl; congruence.
Qed.

Lemma trimEnd_last (s : string) (c : ascii) :
  lastChar (trimEnd s) = Some c -> isWhiteSpace c = false.
Proof.
  induction s as [|a s IH]; simpl; [discriminate |].
  destruct (trimEnd s) as [|b t] eqn:Ht.
  - destruct (isWhiteSpace a) eqn:Ha; simpl; [discriminate |].
    intros [= <-]. exact Ha.
  - exact IH.
Qed.

(** The result of [trim] has no white space at either end. *)
Lemma trim_trimmed (s : string) : trimmed (trim s).
Proof.
  split; intros c Hc.
  - apply trimEnd_first in Hc. now apply trimStart_first in Hc.
  - now apply trimEnd_last in Hc.
Qed.

End StringFacts.

(* ================================================================== *)
(** * The model on known values *)
(* ================================================================== *)

(** [parseFloat] against the binary64 values a JavaScript engine gives:
    0.1 is 0x3FB999999999999A, 1e23 is 0x44B52D02C7E14AF6, 2^53 + 1 rounds
    to even, 5e-324 is the least subnormal and 2e-324 underflows to 0. *)
Example parseFloat_known_values :
  parseFloat "0.1" = S754_finite false 7205759403792794 (-56)
  /\ parseFloat "1e23" = S754_finite false 5960464477539062 24
  /\ parseFloat "9007199254740993" = S754_finite false 4503599627370496 1
  /\ parseFloat "5e-324" = S754_finite false 1 (-1074)
  /\ parseFloat "2e-324" = S754_zero false
  /\ parseFloat "1.7976931348623159e308" = S754_infinity false
  /\ parseFloat "-0" = S754_zero true.
Proof. repeat (split; [vm_compute; reflexivity |]). vm_compute. reflexivity. Qed.

(** [parseFloat] reads a prefix: white space in front and anything after
    the literal are ignored, and no literal at all gives [NaN]. *)
Example parseFloat_prefixes :
  parseFloat "  7.5 bar" = parseFloat "7.5"
  /\ parseFloat "1.2.3" = parseFloat "1.2"
  /\ parseFloat "1e" = ofZ 1
  /\ parseFloat ".5e1" = ofZ 5
  /\ parseFloat "0x10" = ofZ 0
  /\ parseFloat "-Infinity" = S754_infinity true
  /\ parseFloat "n/a" = NaN
  /\ parseFloat "" = NaN
  /\ parseFloat "." = NaN
  /\ parseFloatOf None = NaN.
Proof. repeat (split; [vm_compute; reflexivity |]). vm_compute. reflexivity. Qed.

(** The end-to-end example of the specification: one line, one retained
    row, and its summary. *)
Example pump1_end_to_end :
  mapped [pump1]
  = [ {| equipment_name := "Pump-1"; equipment_type := "Centrifugal";
         flowrate := Some (parseFloat "12.5");
         pressure := Some (parseFloat "3.2");
         temperature := Some (ofZ 80) |} ]
  /\ summarize (mapped [pump1])
     = {| avgFlowrate := parseFloat "12.5";
          avgPressure := parseFloat "3.2";
          avgTemperature := ofZ 80;
          typeDistribution := [("Centrifugal", 1%nat)] |}.
Proof. split; vm_compute; reflexivity. Qed.

Example typeDistribution_counts :
  fold_left (fun dist t => bump t dist) ["Pump"; "Pump"; "Valve"] []
  = [("Pump", 2%nat); ("Valve", 1%nat)].
Proof. reflexivity. Qed.

(** Lines that the filter drops, and identity values as stored. *)
Example mapped_twoPumps :
  map (fun r => (equipment_name r, equipment_type r)) (mapped twoPumps)
  = [("Pump-1", "Centrifugal"); ("Pump-2", "Unknown")]
  /\ mapped [[("Comment", "checked by QA")]; [("Type", "  ")]] = [].
Proof. split; vm_compute; reflexivity. Qed.

(* ================================================================== *)
(** * Column resolver *)
(* ================================================================== *)

Section Resolver.

Lemma find_firstSuchThat {A : Type} (P : A -> bool) (l : list A) (k : A) :
  find P l = Some k <-> firstSuchThat P l k.
Proof.
  induction l as [|x l IH]; simpl.
  - split; [discriminate | intros [pre [post [H _]]]; now destruct pre].
  - destruct (P x) eqn:Hx.
    + split.
      * intros [= <-]. exists [], l. repeat split; [exact Hx | constructor].
      * intros [pre [post [Hl [Hk Hpre]]]].
        destruct pre as [|y pre]; simpl in Hl; injection Hl as -> Hl.
        -- reflexivity.
        -- inversion Hpre; congruence.
    + rewrite IH. split.
      * intros [pre [post [-> [Hk Hpre]]]].
        exists (x :: pre), post. repeat split; [exact Hk | now constructor].
      * intros [pre [post [Hl [Hk Hpre]]]].
        destruct pre as [|y pre]; simpl in Hl; injection Hl as -> Hl.
        -- congruence.
        -- exists pre, post. inversion Hpre. now repeat split.
Qed.

Lemma find_None_Forall {A : Type} (P : A -> bool) (l : list A) :
  find P l = None <-> Forall (fun x => P x = false) l.
Proof.
  induction l as [|x l IH]; simpl.
  - split; [constructor | reflexivity].
  - destruct (P x) eqn:Hx.
    + split; [discriminate | intros H; inversion H; congruence].
    + rewrite IH. split; [now constructor | intros H; now inversion H].
Qed.

Lemma find_ext_all {A : Type} (P Q : A -> bool) (l : list A) :
  (forall x, P x = Q x) -> find P l = find Q l.
Proof.
  intros H. induction l as [|x l IH]; simpl; [reflexivity |].
  now rewrite H, IH.
Qed.

(** Only the set of synonyms matters to the test of one header. *)
Lemma matchesAny_Permutation (ps ps' : list string) (k : string) :
  Permutation ps ps' -> matchesAny ps k = matchesAny ps' k.
Proof.
  intros H. unfold matchesAny.
  apply eq_true_iff_eq. rewrite !existsb_exists.
  split; intros [p [Hin Hp]]; exists p; split; try exact Hp.
  - now apply (Permutation_in _ H).
  - now apply (Permutation_in _ (Permutation_sym H)).
Qed.

(** The three flow synonyms all contain ["flow"], so a header matches one
    of them exactly when it contains ["flow"]. *)
Lemma matchesAny_flow (k : string) : matchesAny flowPatterns k = containsFlow k.
Proof.
  unfold matchesAny, containsFlow, flowPatterns. cbn [existsb].
  change (toLowerCase "flowrate") with "flowrate".
  change (toLowerCase "flow rate") with "flow rate".
  change (toLowerCase "flow") with "flow".
  destruct (includes (toLowerCase k) "flow") eqn:Hflow.
  - now rewrite !orb_true_r.
  - rewrite orb_false_r.
    destruct (includes (toLowerCase k) "flowrate") eqn:H1.
    + rewrite (includes_trans _ "flowrate" "flow" H1 eq_refl) in Hflow. discriminate.
    + destruct (includes (toLowerCase k) "flow rate") eqn:H2; [| reflexivity].
      rewrite (includes_trans _ "flow rate" "flow" H2 eq_refl) in Hflow. discriminate.
Qed.

Lemma digitsOnly_app (a b : string) :
  digitsOnly (a ++ b)%string = digitsOnly a && digitsOnly b.
Proof.
  induction a as [|c a IH]; simpl; [reflexivity |].
  now rewrite IH, andb_assoc.
Qed.

Lemma lowerChar_digit (c : ascii) : isDigit c = true -> lowerChar c = c.
Proof.
  destruct c as [[] [] [] [] [] [] [] []]; intros H;
    solve [reflexivity | discriminate H].
Qed.

Lemma toLowerCase_digitsOnly (k : string) :
  digitsOnly k = true -> toLowerCase k = k.
Proof.
  induction k as [|c k IH]; simpl; [reflexivity |].
  rewrite andb_true_iff. intros [Hc Hk]. now rewrite (lowerChar_digit c Hc), IH.
Qed.

(** A digit string contains digit strings only. *)
Lemma includes_digitsOnly (s p : string) :
  digitsOnly s = true -> includes s p = true -> digitsOnly p = true.
Proof.
  intros Hs Hp. apply includes_app in Hp as [a [b ->]].
  rewrite !digitsOnly_app, !andb_true_iff in Hs. tauto.
Qed.

(** No synonym is a digit string, so no digit-string header is selected. *)
Lemma matchesAny_named (f : CanonicalField) (k : string) :
  matchesAny (patternsOf f) k = true -> named k = true.
Proof.
  unfold named. destruct (digitsOnly k) eqn:Hk; [| reflexivity].
  unfold matchesAny. rewrite existsb_exists. intros [p [Hin Hp]].
  rewrite (toLowerCase_digitsOnly k Hk) in Hp.
  apply (includes_digitsOnly k _ Hk) in Hp.
  destruct f; simpl in Hin;
    repeat (destruct Hin as [<-|Hin]; [discriminate Hp |]); contradiction.
Qed.

Lemma find_filter {A : Type} (P Q : A -> bool) (l : list A) :
  (forall x, P x = true -> Q x = true) -> find P (filter Q l) = find P l.
Proof.
  intros H. induction l as [|x l IH]; simpl; [reflexivity |].
  destruct (Q x) eqn:Hq; simpl.
  - now rewrite IH.
  - destruct (P x) eqn:Hp; [| exact IH].
    rewrite (H x Hp) in Hq. discriminate.
Qed.

(** The resolver sees the keys in [Object.keys] order; for every canonical
    field that gives the header it would select in file order. *)
Lemma findColumn_header_order (headers keys : list string) (f : CanonicalField) :
  keysInHeaderOrder headers keys ->
  findColumn keys (patternsOf f) = findColumn headers (patternsOf f).
Proof.
  unfold keysInHeaderOrder, findColumn. intros H.
  rewrite <- (find_filter _ named keys (matchesAny_named f)).
  rewrite <- (find_filter _ named headers (matchesAny_named f)).
  now rewrite H.
Qed.

Lemma column_resolveColumns (keys : list string) (f : CanonicalField) :
  column (resolveColumns keys) f = findColumn keys (patternsOf f).
Proof. now destruct f. Qed.

(** No synonym is empty, so a selected header is a non-empty string and
    passes the [col ? ... : ...] tests. *)
Lemma matchesAny_truthy (f : CanonicalField) (k : string) :
  matchesAny (patternsOf f) k = true -> truthy (Some k) = true.
Proof.
  intros H. destruct k as [|c k]; [| reflexivity].
  destruct f; discriminate H.
Qed.

End Resolver.

(** C7.  When some header contains "flow" after lowercasing, the resolver
    maps the flowrate field to the first such header in header order, and
    that header passes the truthiness test that guards its use.  The order
    is that of the keys of the record, and it is the order of the headers
    in the file as well, whatever place [Object.keys] gives to digit-string
    keys. *)
Theorem flowrate_first_flow_header (keys : list string)
  (Hflow : exists k, In k keys /\ containsFlow k = true) :
  exists k,
    flowCol (resolveColumns keys) = Some k
    /\ firstSuchThat containsFlow keys k
    /\ truthy (flowCol (resolveColumns keys)) = true
    /\ forall headers, keysInHeaderOrder headers keys ->
                       firstSuchThat containsFlow headers k.
Proof.
  destruct Hflow as [k0 [Hin Hk0]].
  assert (Hcol : forall l, findColumn l flowPatterns = find containsFlow l)
    by (intros l; apply find_ext_all, matchesAny_flow).
  change (flowCol (resolveColumns keys)) with (findColumn keys flowPatterns).
  destruct (findColumn keys flowPatterns) as [k|] eqn:Hfind.
  - exists k. split; [reflexivity |].
    pose proof Hfind as Hfirst. rewrite Hcol in Hfirst.
    apply find_firstSuchThat in Hfirst.
    split; [exact Hfirst |]. split.
    + destruct Hfirst as [_ [_ [_ [Hk _]]]].
      rewrite <- matchesAny_flow in Hk.
      exact (matchesAny_truthy FFlowrate k Hk).
    + intros headers Hord. apply find_firstSuchThat.
      rewrite <- Hcol, <- Hfind. symmetry.
      exact (findColumn_header_order headers keys FFlowrate Hord).
  - rewrite Hcol in Hfind.
    apply find_None_Forall in Hfind. rewrite Forall_forall in Hfind.
    specialize (Hfind k0 Hin). congruence.
Qed.

Lemma flowrate_first_flow_header_witness :
  (exists k, In k plantHeaders /\ containsFlow k = true)
  /\ exists k,
       flowCol (resolveColumns plantHeaders) = Some k
       /\ firstSuchThat containsFlow plantHeaders k
       /\ truthy (flowCol (resolveColumns plantHeaders)) = true
       /\ forall headers, keysInHeaderOrder headers plantHeaders ->
                          firstSuchThat containsFlow headers k.
Proof.
  assert (H : exists k, In k plantHeaders /\ containsFlow k = true).
  { exists "Flowrate". split; [simpl; tauto | reflexivity]. }
  split; [exact H | exact (flowrate_first_flow_header plantHeaders H)].
Defined.

(** C2, as the code has it.  The resolver returns the first header, in
    header order, that contains at least one synonym of the field, and
    nothing when no header does; the order in which the synonyms are
    listed has no influence on the header selected. *)
Theorem findColumn_first_matching_header
  (keys patterns patterns' : list string)
  (Hperm : Permutation patterns patterns') :
  (forall k, findColumn keys patterns = Some k
             <-> firstSuchThat (matchesAny patterns) keys k)
  /\ (findColumn keys patterns = None
      <-> Forall (fun k => matchesAny patterns k = false) keys)
  /\ findColumn keys patterns' = findColumn keys patterns.
Proof.
  unfold findColumn. split; [| split].
  - intros k. apply find_firstSuchThat.
  - apply find_None_Forall.
  - apply find_ext_all. intros k. symmetry. now apply matchesAny_Permutation.
Qed.

Lemma findColumn_first_matching_header_witness :
  Permutation namePatterns (rev namePatterns)
  /\ (forall k, findColumn idFirstHeaders namePatterns = Some k
             <-> firstSuchThat (matchesAny namePatterns) idFirstHeaders k)
  /\ (findColumn idFirstHeaders namePatterns = None
      <-> Forall (fun k => matchesAny namePatterns k = false) idFirstHeaders)
  /\ findColumn idFirstHeaders (rev namePatterns)
     = findColumn idFirstHeaders namePatterns.
Proof.
  split; [apply Permutation_rev |].
  apply (findColumn_first_matching_header
           idFirstHeaders namePatterns (rev namePatterns)).
  apply Permutation_rev.
Defined.

(** C2, counterexample.  With an id column ahead of the name column, the
    code selects the id column (it contains "equipment"), whereas trying
    the synonyms in list order selects the name column (it contains
    "equipment name", the first synonym). *)
Lemma findColumn_not_by_synonym_order :
  findColumn idFirstHeaders namePatterns = Some "Equipment ID"
  /\ findColumnBySynonym idFirstHeaders namePatterns = Some "Equipment Name"
  /\ findColumn idFirstHeaders namePatterns
     <> findColumnBySynonym idFirstHeaders namePatterns.
Proof. split; [reflexivity | split; [reflexivity | discriminate]]. Qed.

(** C3, as the code has it.  Each of the five fields is resolved on its
    own from the same header list: its column is the first header matching
    one of its synonyms, a selected header is one of the headers and
    matches, and a field is left unmapped exactly when no header matches. *)
Theorem resolveColumns_independent (keys : list string) (f : CanonicalField) :
  column (resolveColumns keys) f = findColumn keys (patternsOf f)
  /\ (forall k, column (resolveColumns keys) f = Some k ->
                In k keys /\ matchesAny (patternsOf f) k = true)
  /\ (column (resolveColumns keys) f = None
      <-> Forall (fun k => matchesAny (patternsOf f) k = false) keys).
Proof.
  rewrite column_resolveColumns. unfold findColumn.
  split; [reflexivity | split].
  - intros k Hk. now apply find_some in Hk.
  - apply find_None_Forall.
Qed.

(** C3, counterexample.  One header is selected for two canonical fields:
    "Equipment Type" contains "equipment", a name synonym, and "type". *)
Lemma one_header_two_fields :
  column (resolveColumns typeOnlyHeaders) FName = Some "Equipment Type"
  /\ column (resolveColumns typeOnlyHeaders) FType = Some "Equipment Type"
  /\ FName <> FType.
Proof. split; [reflexivity | split; [reflexivity | discriminate]]. Qed.

(** C8.  When every record of a file has the same keys, resolving the
    columns for each record gives the mapping resolved once from the
    header list, so the normalised rows, and the retained ones, are the
    same under both strategies. *)
Theorem per_row_resolution_is_per_file
  (headers : list string) (data : list RawRecord)
  (Huniform : Forall (fun row => keys row = headers) data) :
  Forall (fun row => resolveColumns (keys row) = resolveColumns headers) data
  /\ map mapRow data = map (normalizeRow (resolveColumns headers)) data
  /\ mapped data = mappedOncePerFile headers data.
Proof.
  assert (Hmap : map mapRow data = map (normalizeRow (resolveColumns headers)) data).
  { induction Huniform as [|row data Hrow _ IH]; simpl; [reflexivity |].
    unfold mapRow at 1. now rewrite Hrow, IH. }
  repeat split.
  - eapply Forall_impl; [| exact Huniform]. intros row Hrow. simpl in Hrow.
    now rewrite Hrow.
  - exact Hmap.
  - unfold mapped, mappedOncePerFile. now rewrite Hmap.
Qed.

Lemma per_row_resolution_is_per_file_witness :
  Forall (fun row => keys row = twoPumpsHeaders) twoPumps
  /\ Forall (fun row => resolveColumns (keys row) = resolveColumns twoPumpsHeaders)
         twoPumps
  /\ map mapRow twoPumps
     = map (normalizeRow (resolveColumns twoPumpsHeaders)) twoPumps
  /\ mapped twoPumps = mappedOncePerFile twoPumpsHeaders twoPumps.
Proof.
  assert (H : Forall (fun row => keys row = twoPumpsHeaders) twoPumps)
    by (repeat constructor).
  split; [exact H | exact (per_row_resolution_is_per_file twoPumpsHeaders twoPumps H)].
Defined.

(* ================================================================== *)
(** * Row normaliser and row filter *)
(* ================================================================== *)

Section Normalizer.

Lemma trimStart_allWhiteSpace (s : string) :
  trimStart s = "" <-> allWhiteSpace s = true.
Proof.
  induction s as [|c s IH]; simpl; [tauto |].
  destruct (isWhiteSpace c); simpl; [exact IH |].
  split; discriminate.
Qed.

Lemma trimEnd_empty (s : string) :
  trimEnd s = "" <-> allWhiteSpace s = true.
Proof.
  induction s as [|c s IH]; simpl; [tauto |].
  destruct (trimEnd s) as [|b t] eqn:Ht.
  - destruct (isWhiteSpace c); simpl.
    + exact IH.
    + split; discriminate.
  - split; [discriminate |]. rewrite andb_true_iff. intros [_ H].
    apply IH in H. discriminate.
Qed.

Lemma trimStart_not_white (s : string) :
  trimStart s <> "" -> allWhiteSpace (trimStart s) = false.
Proof.
  induction s as [|c s IH]; simpl; [congruence |].
  destruct (isWhiteSpace c) eqn:Hc; [exact IH |].
  intros _. simpl. now rewrite Hc.
Qed.

(** [trim] gives the empty string exactly on empty and white-space-only
    strings. *)
Lemma trim_empty (s : string) : trim s = "" <-> allWhiteSpace s = true.
Proof.
  unfold trim. rewrite trimEnd_empty. split.
  - intros H. apply trimStart_allWhiteSpace.
    destruct (string_dec (trimStart s) "") as [E|E]; [exact E |].
    apply trimStart_not_white in E. congruence.
  - intros H. apply trimStart_allWhiteSpace in H. now rewrite H.
Qed.

Lemma eqb_empty (s : string) : String.eqb s "" = true <-> s = "".
Proof. apply String.eqb_eq. Qed.

(** A column the resolver selected is a non-empty header. *)
Lemma resolved_truthy (keys : list string) (f : CanonicalField) (c : string) :
  column (resolveColumns keys) f = Some c -> truthy (Some c) = true.
Proof.
  rewrite column_resolveColumns. unfold findColumn. intros H.
  apply find_some in H as [_ H]. exact (matchesAny_truthy f c H).
Qed.

(** The text expression of the row callback, on a column of the resolver. *)
Lemma textField_textValue (row : RawRecord) (f : CanonicalField) :
  textField row (column (resolveColumns (keys row)) f)
  = textValue (rawText row f).
Proof.
  unfold rawText.
  destruct (column (resolveColumns (keys row)) f) as [c|] eqn:Hc;
    [| reflexivity].
  unfold textField. rewrite (resolved_truthy _ _ _ Hc).
  destruct (get row c) as [v|]; simpl; [| reflexivity].
  destruct (allWhiteSpace v) eqn:Hv.
  - apply trim_empty in Hv. now rewrite Hv.
  - destruct (String.eqb (trim v) "") eqn:Ht; [| reflexivity].
    apply eqb_empty, trim_empty in Ht. congruence.
Qed.

Lemma textValue_not_empty (raw : option string) : textValue raw <> "".
Proof.
  destruct raw as [v|]; simpl; [| discriminate].
  destruct (allWhiteSpace v) eqn:Hv; [discriminate |].
  intros H. apply trim_empty in H. congruence.
Qed.

Lemma textValue_trimmed (raw : option string) : trimmed (textValue raw).
Proof.
  destruct raw as [v|]; simpl.
  - destruct (allWhiteSpace v).
    + split; intros c [= <-]; reflexivity.
    + apply trim_trimmed.
  - split; intros c [= <-]; reflexivity.
Qed.

(** The numeric expression never yields [NaN] nor a zero: both are falsy
    and turn into [null]. *)
Lemma numberField_Some (row : RawRecord) (col : option string) (x : number) :
  numberField row col = Some x ->
  isNaN x = false /\ toBoolean x = true
  /\ exists c, col = Some c /\ x = parseFloatOf (get row c).
Proof.
  unfold numberField. destruct col as [c|]; [| discriminate].
  destruct (truthy (Some c)); [| discriminate].
  destruct (toBoolean (parseFloatOf (get row c))) eqn:Hb; [| discriminate].
  intros [= <-]. repeat split; [| exact Hb | now exists c].
  now destruct (parseFloatOf (get row c)).
Qed.

Lemma numberField_unmapped (row : RawRecord) : numberField row None = None.
Proof. reflexivity. Qed.

Lemma numberField_NaN (row : RawRecord) (c : string) :
  isNaN (parseFloatOf (get row c)) = true -> numberField row (Some c) = None.
Proof.
  unfold numberField. destruct (truthy (Some c)); [| reflexivity].
  now destruct (parseFloatOf (get row c)).
Qed.

Lemma keepRow_iff (r : ParsedRow) : keepRow r = true <-> ~ bothUnknown r.
Proof.
  unfold keepRow, bothUnknown.
  rewrite orb_true_iff, !negb_true_iff.
  destruct (String.eqb_spec (equipment_name r) Unknown) as [Hn|Hn];
  destruct (String.eqb_spec (equipment_type r) Unknown) as [Ht|Ht]; intuition congruence.
Qed.

End Normalizer.

(** C1, the defect.  A reading of "0" under a resolved numeric header is a
    text that parses as the number 0 (not as NaN), yet the field of the
    normalised row is null: [parseFloat(...) || null] takes the falsy 0
    for a failed parse. *)
Theorem zero_reading_becomes_null :
  flowCol (resolveColumns (keys zeroFlowRecord)) = Some "Flow Rate"
  /\ get zeroFlowRecord "Flow Rate" = Some "0"
  /\ parseFloat "0" = ofZ 0
  /\ isNaN (parseFloat "0") = false
  /\ flowrate (mapRow zeroFlowRecord) = None
  /\ parseFloat "0.0" = ofZ 0
  /\ temperature (mapRow zeroFlowRecord) = None.
Proof. repeat (split; [vm_compute; reflexivity |]). vm_compute. reflexivity. Qed.

(** C4.  The filter keeps a normalised row exactly when its two identity
    fields are not both the sentinel; so a retained row has an identity
    field other than the sentinel, a record with neither identity column
    is dropped, and a row whose name is the sentinel and whose type is
    not is kept. *)
Theorem row_filter_contract (data : list RawRecord) :
  (forall r, keepRow r = true <-> ~ bothUnknown r)
  /\ (forall r, In r (mapped data)
                <-> In r (map mapRow data) /\ ~ bothUnknown r)
  /\ Forall (fun r => equipment_name r <> Unknown \/ equipment_type r <> Unknown)
            (mapped data)
  /\ (forall row, rawText row FName = None -> rawText row FType = None ->
                  keepRow (mapRow row) = false)
  /\ (forall r, equipment_name r = Unknown -> equipment_type r <> Unknown ->
                keepRow r = true)
  /\ (forall row, rawText row FName = None ->
                  textValue (rawText row FType) <> Unknown ->
                  keepRow (mapRow row) = true
                  /\ equipment_type (mapRow row) = textValue (rawText row FType)).
Proof.
  assert (Hname : forall row, equipment_name (mapRow row) = textValue (rawText row FName))
    by (intros row; exact (textField_textValue row FName)).
  assert (Htype : forall row, equipment_type (mapRow row) = textValue (rawText row FType))
    by (intros row; exact (textField_textValue row FType)).
  split; [exact keepRow_iff |].
  split; [intros r; unfold mapped; now rewrite filter_In, keepRow_iff |].
  split.
  { apply Forall_forall. intros r Hr. unfold mapped in Hr.
    apply filter_In in Hr as [_ Hr]. unfold keepRow in Hr.
    apply orb_true_iff in Hr as [Hr|Hr]; apply negb_true_iff in Hr;
      [left | right]; intros E; rewrite E in Hr; discriminate. }
  split.
  { intros row Hn Ht. unfold keepRow. now rewrite Hname, Htype, Hn, Ht. }
  split.
  { intros r Hn Ht. apply keepRow_iff. intros [_ H]. contradiction. }
  intros row Hn Ht. split; [| apply Htype].
  apply keepRow_iff. intros [_ H]. rewrite Htype in H. contradiction.
Qed.

(** C10.  In every retained row the name and the type are non-empty and
    carry no white space at either end: each is the sentinel when the raw
    value is missing, empty or white space only, and the trimmed raw value
    otherwise.  The records built from them for the store carry the same
    values, and the table declares both columns NOT NULL. *)
Theorem identity_fields_trimmed_nonempty (data : list RawRecord) :
  Forall (fun r => equipment_name r <> "" /\ trimmed (equipment_name r)
                   /\ equipment_type r <> "" /\ trimmed (equipment_type r))
         (mapped data)
  /\ (forall uploadData uid,
        Forall (fun e => EquipmentData.equipment_name e <> ""
                         /\ trimmed (EquipmentData.equipment_name e)
                         /\ EquipmentData.equipment_type e <> ""
                         /\ trimmed (EquipmentData.equipment_type e))
               (equipmentRecords uploadData uid (mapped data)))
  /\ (forall row,
        equipment_name (mapRow row) = textValue (rawText row FName)
        /\ equipment_type (mapRow row) = textValue (rawText row FType))
  /\ declaredNotNull equipment_data_columns "equipment_name" = true
  /\ declaredNotNull equipment_data_columns "equipment_type" = true.
Proof.
  assert (Hrow : forall row,
             equipment_name (mapRow row) = textValue (rawText row FName)
             /\ equipment_type (mapRow row) = textValue (rawText row FType)).
  { intros row. split.
    - exact (textField_textValue row FName).
    - exact (textField_textValue row FType). }
  assert (Hrows : Forall (fun r => equipment_name r <> ""
                                   /\ trimmed (equipment_name r)
                                   /\ equipment_type r <> ""
                                   /\ trimmed (equipment_type r))
                         (mapped data)).
  { apply Forall_forall. intros r Hr. unfold mapped in Hr.
    apply filter_In in Hr as [Hr _]. apply in_map_iff in Hr as [row [<- _]].
    destruct (Hrow row) as [-> ->].
    repeat split; try apply textValue_not_empty; apply textValue_trimmed. }
  split; [exact Hrows |].
  split; [| split; [exact Hrow | split; reflexivity]].
  intros uploadData uid. unfold equipmentRecords.
  apply Forall_map. simpl. exact Hrows.
Qed.

(* ================================================================== *)
(** * Summary aggregator *)
(* ================================================================== *)

Section Aggregator.

Variable f : ParsedRow -> option number.

Lemma fold_nonNull (rows : list ParsedRow) (acc : number) :
  fold_left add (nonNull f rows) acc = sumNonNull f acc rows.
Proof.
  revert acc. unfold nonNull.
  induction rows as [|d rows IH]; intros acc; simpl; [reflexivity |].
  destruct (f d) as [x|] eqn:Hd; simpl.
  - rewrite Hd. apply IH.
  - apply IH.
Qed.

Lemma length_nonNull (rows : list ParsedRow) :
  List.length (nonNull f rows) = countNonNull f rows.
Proof.
  unfold nonNull. rewrite length_map.
  induction rows as [|d rows IH]; simpl; [reflexivity |].
  destruct (f d); simpl; now rewrite IH.
Qed.

Lemma avg_nonNull (rows : list ParsedRow) :
  avg (nonNull f rows) = specAvg f rows.
Proof.
  unfold avg, specAvg. rewrite fold_nonNull, length_nonNull.
  now destruct (countNonNull f rows).
Qed.

End Aggregator.

(** C5.  Each average of the summary is the sum of the non-null values of
    its field over the rows divided by their number, and 0 when there is
    none; the average flowrate over 10, null, 20 is 15, and over null,
    null it is 0. *)
Theorem summary_averages (rows : list ParsedRow) :
  avgFlowrate (summarize rows) = specAvg flowrate rows
  /\ avgPressure (summarize rows) = specAvg pressure rows
  /\ avgTemperature (summarize rows) = specAvg temperature rows
  /\ (forall g, countNonNull g rows = O -> avg (nonNull g rows) = zero)
  /\ avgFlowrate (summarize [withFlowrate (Some (ofZ 10)); withFlowrate None;
                             withFlowrate (Some (ofZ 20))]) = ofZ 15
  /\ avgFlowrate (summarize [withFlowrate None; withFlowrate None]) = ofZ 0.
Proof.
  split; [apply avg_nonNull |].
  split; [apply avg_nonNull |].
  split; [apply avg_nonNull |].
  split; [| split; vm_compute; reflexivity].
  intros g Hg. rewrite avg_nonNull. unfold specAvg. now rewrite Hg.
Qed.

(* ================================================================== *)
(** * Retention step *)
(* ================================================================== *)

Section Retention.

Local Open Scope Z_scope.

Lemma insertDesc_perm (u : Uploads.row) (l : list Uploads.row) :
  Permutation (insertDesc u l) (u :: l).
Proof.
  induction l as [|v l IH]; simpl; [apply Permutation_refl |].
  destruct (Uploads.created_at u <? Uploads.created_at v).
  - apply perm_trans with (v :: u :: l); [now apply perm_skip | apply perm_swap].
  - apply Permutation_refl.
Qed.

Lemma orderBy_perm (l : list Uploads.row) :
  Permutation (orderByCreatedAtDesc l) l.
Proof.
  induction l as [|u l IH]; simpl; [constructor |].
  apply perm_trans with (u :: orderByCreatedAtDesc l);
    [apply insertDesc_perm | now apply perm_skip].
Qed.

Lemma insertDesc_sorted (u : Uploads.row) (l : list Uploads.row) :
  newestFirst l -> newestFirst (insertDesc u l).
Proof.
  unfold newestFirst. induction 1 as [|v l Hl IH Hv]; simpl.
  - repeat constructor.
  - destruct (Z.ltb_spec (Uploads.created_at u) (Uploads.created_at v)) as [Huv|Huv].
    + constructor; [exact IH |].
      apply (Permutation_Forall (Permutation_sym (insertDesc_perm u l))).
      constructor; [lia | exact Hv].
    + constructor; [now constructor |].
      constructor; [exact Huv |].
      eapply Forall_impl; [| exact Hv]. intros w Hw. simpl in Hw. lia.
Qed.

Lemma orderBy_sorted (l : list Uploads.row) :
  newestFirst (orderByCreatedAtDesc l).
Proof.
  induction l as [|u l IH]; simpl; [constructor | now apply insertDesc_sorted].
Qed.

(** In a list ordered newest first, nothing after position [n] is newer
    than anything before it. *)
Lemma newestFirst_split (l : list Uploads.row) (n : nat) (x y : Uploads.row) :
  newestFirst l -> In x (firstn n l) -> In y (skipn n l) ->
  Uploads.created_at y <= Uploads.created_at x.
Proof.
  intros Hl. revert n. induction Hl as [|v l Hl IH Hv]; intros n Hx Hy.
  - destruct n; contradiction.
  - destruct n as [|n]; simpl in Hx, Hy; [contradiction |].
    destruct Hx as [<-|Hx].
    + rewrite Forall_forall in Hv. apply Hv.
      rewrite <- (firstn_skipn n l). apply in_or_app. now right.
    + now apply (IH n).
Qed.

Lemma Permutation_filter {A : Type} (p : A -> bool) (l l' : list A) :
  Permutation l l' -> Permutation (filter p l) (filter p l').
Proof.
  induction 1 as [|x l l' _ IH|x y l|l l' l'' _ IH1 _ IH2]; simpl.
  - constructor.
  - destruct (p x); [now apply perm_skip | exact IH].
  - destruct (p x), (p y); try apply Permutation_refl. apply perm_swap.
  - now apply perm_trans with (filter p l').
Qed.

Lemma filter_nothing {A : Type} (p : A -> bool) (l : list A) :
  (forall x, In x l -> p x = false) -> filter p l = [].
Proof.
  induction l as [|x l IH]; intros H; simpl; [reflexivity |].
  rewrite (H x (or_introl eq_refl)). apply IH. intros y Hy. apply H. now right.
Qed.

Lemma existsb_eqb_In (i : N) (ids : list N) :
  existsb (N.eqb i) ids = true <-> In i ids.
Proof.
  rewrite existsb_exists. split.
  - intros [j [Hj Hij]]. apply N.eqb_eq in Hij. now subst.
  - intros H. exists i. split; [exact H | apply N.eqb_refl].
Qed.

Lemma NoDup_ids_filter (p : Uploads.row -> bool) (l : list Uploads.row) :
  NoDup (map Uploads.id l) -> NoDup (map Uploads.id (filter p l)).
Proof.
  induction l as [|u l IH]; simpl; [trivial |].
  intros H. inversion H as [|i ids Hnotin Hnodup]; subst.
  destruct (p u); simpl; [constructor |]; try now apply IH.
  intros Hin. apply Hnotin. apply in_map_iff in Hin as [v [Hv Hin]].
  apply in_map_iff. exists v. split; [exact Hv |].
  now apply filter_In in Hin as [Hin _].
Qed.

Lemma NoDup_ids_eq (l : list Uploads.row) (u v : Uploads.row) :
  NoDup (map Uploads.id l) -> In u l -> In v l ->
  Uploads.id u = Uploads.id v -> u = v.
Proof.
  induction l as [|w l IH]; simpl; [contradiction |].
  intros H Hu Hv E. inversion H as [|i ids Hnotin Hnodup]; subst.
  destruct Hu as [<-|Hu], Hv as [<-|Hv]; trivial.
  - exfalso. apply Hnotin. rewrite E. now apply in_map.
  - exfalso. apply Hnotin. rewrite <- E. now apply in_map.
  - now apply IH.
Qed.

(** With unique ids, dropping the ids of a suffix keeps the prefix. *)
Lemma filter_keeps_prefix (a b : list Uploads.row) :
  NoDup (map Uploads.id (a ++ b)) ->
  filter (fun u => negb (existsb (N.eqb (Uploads.id u)) (map Uploads.id b)))
         (a ++ b) = a.
Proof.
  induction a as [|x a IH]; simpl; intros H.
  - apply filter_nothing. intros u Hu. apply negb_false_iff.
    apply existsb_eqb_In. now apply in_map.
  - inversion H as [|i ids Hnotin Hnodup]; subst.
    destruct (existsb (N.eqb (Uploads.id x)) (map Uploads.id b)) eqn:Hx; simpl.
    + exfalso. apply Hnotin. apply existsb_eqb_In in Hx.
      rewrite map_app. apply in_or_app. now right.
    + f_equal. now apply IH.
Qed.

Lemma length_removeById (l : list Uploads.row) (x : Uploads.row) :
  NoDup (map Uploads.id l) -> In x l ->
  S (List.length (removeById (Uploads.id x) l)) = List.length l.
Proof.
  unfold removeById. induction l as [|u l IH]; simpl; [contradiction |].
  intros H Hx. inversion H as [|i ids Hnotin Hnodup]; subst.
  destruct Hx as [->|Hx].
  - rewrite N.eqb_refl. simpl. f_equal.
    assert (E : filter (fun u => negb (N.eqb (Uploads.id u) (Uploads.id x))) l = l).
    { apply forallb_filter_id. apply forallb_forall. intros v Hv.
      apply negb_true_iff, N.eqb_neq. intros E. apply Hnotin.
      rewrite <- E. now apply in_map. }
    now rewrite E.
  - destruct (N.eqb_spec (Uploads.id u) (Uploads.id x)) as [E|E]; simpl.
    + exfalso. apply Hnotin. rewrite E. now apply in_map.
    + f_equal. now apply IH.
Qed.

(** The user's uploads after a successful delete of [ids]. *)
Lemma uploadsOf_deleteUploads (uid : N) (ids : list N) (db : Database) :
  uploadsOf uid (deleteUploads true uid ids db)
  = filter (fun u => negb (existsb (N.eqb (Uploads.id u)) ids)) (uploadsOf uid db).
Proof.
  unfold uploadsOf, deleteUploads, deleted. simpl.
  induction (uploads db) as [|u l IH]; simpl; [reflexivity |].
  destruct (N.eqb (Uploads.user_id u) uid) eqn:Hu; simpl.
  - destruct (existsb (N.eqb (Uploads.id u)) ids); simpl;
      [exact IH | rewrite Hu; now f_equal].
  - now rewrite Hu.
Qed.

(** The uploads table after a run in which the insert succeeds. *)
Lemma uploads_storeAfter (env : StoreReplies) (uid : N) (f : File)
  (rows : list ParsedRow) (db : Database) :
  rows <> [] -> insertUploadOk env = true ->
  uploads (storeAfter env uid f rows db)
  = uploads (retention env uid db) ++ [insertedUpload env uid f rows].
Proof.
  intros Hrows Hins. unfold storeAfter, handleUpload.
  destruct rows as [|r rows]; [congruence |].
  rewrite Hins. now destruct (insertRowsOk env).
Qed.

Lemma uploadsOf_storeAfter (env : StoreReplies) (uid : N) (f : File)
  (rows : list ParsedRow) (db : Database) :
  rows <> [] -> insertUploadOk env = true ->
  uploadsOf uid (storeAfter env uid f rows db)
  = uploadsOf uid (retention env uid db) ++ [insertedUpload env uid f rows].
Proof.
  intros Hrows Hins. unfold uploadsOf at 1.
  rewrite (uploads_storeAfter env uid f rows db Hrows Hins).
  rewrite filter_app. simpl. now rewrite N.eqb_refl.
Qed.

(** The retention step does nothing when the query or the delete fails. *)
Lemma retention_failed (env : StoreReplies) (uid : N) (db : Database) :
  selectOk env = false \/ deleteOk env = false -> retention env uid db = db.
Proof.
  unfold retention, selectUploadIds, deleteUploads.
  intros [H|H]; rewrite H; [reflexivity |].
  destruct (selectOk env); [| reflexivity].
  now destruct (5 <=? _)%nat.
Qed.

Lemma existing_unique (uid : N) (db : Database) :
  uniqueIds db -> NoDup (map Uploads.id (existing uid db)).
Proof.
  intros Hpk. unfold existing.
  apply (Permutation_NoDup
           (Permutation_map Uploads.id (Permutation_sym (orderBy_perm _)))).
  now apply NoDup_ids_filter.
Qed.

Lemma length_existing (uid : N) (db : Database) :
  List.length (existing uid db) = List.length (uploadsOf uid db).
Proof. apply Permutation_length, orderBy_perm. Qed.

(** A successful retention step with five uploads or more: the user is
    left with the four newest of the query. *)
Lemma retention_keeps_four (env : StoreReplies) (uid : N) (db : Database) :
  selectOk env = true -> deleteOk env = true -> uniqueIds db ->
  (5 <= List.length (uploadsOf uid db))%nat ->
  Permutation (uploadsOf uid (retention env uid db))
              (firstn 4 (existing uid db)).
Proof.
  intros Hsel Hdel Hpk Hfive. unfold retention, selectUploadIds.
  rewrite Hsel, Hdel. fold (existing uid db).
  rewrite length_map, length_existing.
  destruct (Nat.leb_spec 5 (List.length (uploadsOf uid db))) as [_|Hlt]; [| lia].
  rewrite uploadsOf_deleteUploads, skipn_map.
  apply perm_trans with
    (filter (fun u => negb (existsb (N.eqb (Uploads.id u))
                                    (map Uploads.id (skipn 4 (existing uid db)))))
            (existing uid db)).
  - apply Permutation_filter, Permutation_sym, orderBy_perm.
  - pose proof (filter_keeps_prefix (firstn 4 (existing uid db))
                                     (skipn 4 (existing uid db))) as Hkeep.
    rewrite firstn_skipn in Hkeep.
    rewrite Hkeep; [apply Permutation_refl | now apply existing_unique].
Qed.

Lemma retention_below_five (env : StoreReplies) (uid : N) (db : Database) :
  (List.length (uploadsOf uid db) < 5)%nat -> retention env uid db = db.
Proof.
  intros Hlt. unfold retention, selectUploadIds.
  destruct (selectOk env); [| reflexivity].
  fold (existing uid db). rewrite length_map, length_existing.
  destruct (Nat.leb_spec 5 (List.length (uploadsOf uid db))); [lia | reflexivity].
Qed.

(** A successful retention step with exactly five uploads removes one row,
    an oldest one. *)
Lemma retention_at_five (env : StoreReplies) (uid : N) (db : Database) :
  selectOk env = true -> deleteOk env = true -> uniqueIds db ->
  List.length (uploadsOf uid db) = 5%nat ->
  exists oldest,
    In oldest (uploadsOf uid db)
    /\ (forall u, In u (uploadsOf uid db) ->
                  Uploads.created_at oldest <= Uploads.created_at u)
    /\ uploads (retention env uid db) = removeById (Uploads.id oldest) (uploads db).
Proof.
  intros Hsel Hdel Hpk Hfive.
  pose proof (length_existing uid db) as Hlen. rewrite Hfive in Hlen.
  pose proof (orderBy_sorted (uploadsOf uid db)) as Hsorted.
  pose proof (orderBy_perm (uploadsOf uid db)) as Hperm.
  fold (existing uid db) in Hsorted, Hperm.
  unfold retention, selectUploadIds. rewrite Hsel, Hdel.
  fold (existing uid db). rewrite length_map, Hlen, skipn_map.
  destruct (existing uid db) as [|u1 [|u2 [|u3 [|u4 [|u5 [|u6 l]]]]]] eqn:Hex;
    try discriminate Hlen.
  exists u5.
  assert (Hin5 : In u5 (uploadsOf uid db)).
  { apply (Permutation_in _ Hperm). simpl. tauto. }
  split; [exact Hin5 |]. split.
  - intros u Hu. apply (Permutation_in _ (Permutation_sym Hperm)) in Hu.
    destruct (in_app_or (firstn 4 [u1; u2; u3; u4; u5]) (skipn 4 [u1; u2; u3; u4; u5]) u)
      as [Hfirst|Hlast].
    + now rewrite firstn_skipn.
    + apply (newestFirst_split _ 4 u u5 Hsorted Hfirst). simpl. tauto.
    + simpl in Hlast. destruct Hlast as [<-|[]]. lia.
  - simpl. unfold removeById. apply filter_ext_in. intros u Hu.
    unfold deleted. simpl. rewrite orb_false_r.
    destruct (N.eqb_spec (Uploads.id u) (Uploads.id u5)) as [E|E];
      [| now rewrite andb_false_r].
    assert (u = u5).
    { apply (NoDup_ids_eq (uploads db)); trivial.
      unfold uploadsOf in Hin5. now apply filter_In in Hin5 as [Hin5 _]. }
    subst u. unfold uploadsOf in Hin5. apply filter_In in Hin5 as [_ Huid].
    now rewrite Huid.
Qed.

End Retention.

(** C6.  With every store call succeeding and ids unique, the query lists
    the user's uploads newest first; with five uploads or more all but the
    four newest are deleted, so that five remain once the new one is
    inserted; with fewer nothing is deleted; with exactly five, one row,
    an oldest one, is deleted and the table keeps its size. *)
Theorem retention_enforcer (env : StoreReplies) (uid : N) (f : File)
  (rows : list ParsedRow) (db : Database)
  (Hrows : rows <> [])
  (Hsel : selectOk env = true) (Hdel : deleteOk env = true)
  (Hins : insertUploadOk env = true)
  (Hpk : uniqueIds db) :
  selectUploadIds (selectOk env) uid db = Some (map Uploads.id (existing uid db))
  /\ newestFirst (existing uid db)
  /\ Permutation (existing uid db) (uploadsOf uid db)
  /\ ((5 <= List.length (uploadsOf uid db))%nat ->
      Permutation (uploadsOf uid (storeAfter env uid f rows db))
                  (firstn 4 (existing uid db) ++ [insertedUpload env uid f rows])
      /\ List.length (uploadsOf uid (storeAfter env uid f rows db)) = 5%nat)
  /\ ((List.length (uploadsOf uid db) < 5)%nat ->
      uploads (storeAfter env uid f rows db)
      = uploads db ++ [insertedUpload env uid f rows])
  /\ (List.length (uploadsOf uid db) = 5%nat ->
      exists oldest,
        In oldest (uploadsOf uid db)
        /\ (forall u, In u (uploadsOf uid db) ->
                      (Uploads.created_at oldest <= Uploads.created_at u)%Z)
        /\ uploads (storeAfter env uid f rows db)
           = removeById (Uploads.id oldest) (uploads db)
             ++ [insertedUpload env uid f rows]
        /\ List.length (uploads (storeAfter env uid f rows db))
           = List.length (uploads db)).
Proof.
  split; [unfold selectUploadIds; now rewrite Hsel |].
  split; [apply orderBy_sorted |].
  split; [apply orderBy_perm |].
  split; [| split].
  - intros Hfive.
    rewrite (uploadsOf_storeAfter env uid f rows db Hrows Hins).
    pose proof (retention_keeps_four env uid db Hsel Hdel Hpk Hfive) as Hkeep.
    split; [now apply Permutation_app_tail |].
    rewrite length_app, (Permutation_length Hkeep), length_firstn, length_existing.
    cbn [List.length]. lia.
  - intros Hlt. rewrite (uploads_storeAfter env uid f rows db Hrows Hins).
    now rewrite retention_below_five.
  - intros Hfive.
    destruct (retention_at_five env uid db Hsel Hdel Hpk Hfive)
      as [oldest [Hin [Hold Hret]]].
    exists oldest. split; [exact Hin |]. split; [exact Hold |].
    rewrite (uploads_storeAfter env uid f rows db Hrows Hins), Hret.
    split; [reflexivity |].
    rewrite length_app. simpl. rewrite Nat.add_1_r.
    apply length_removeById; [exact Hpk |].
    unfold uploadsOf in Hin. now apply filter_In in Hin as [Hin _].
Qed.

(** C9.  The retention step reports nothing to the rest of [handleUpload]:
    when its query or its delete fails and the insert succeeds, no upload
    is removed and the new one is added, so the user has one upload more
    than before, more than five when there were five already, and with the
    rows inserted the run still ends in success. *)
Theorem retention_failure_unchecked (env : StoreReplies) (uid : N) (f : File)
  (rows : list ParsedRow) (db : Database)
  (Hrows : rows <> [])
  (Hfail : selectOk env = false \/ deleteOk env = false)
  (Hins : insertUploadOk env = true) :
  uploads (storeAfter env uid f rows db)
  = uploads db ++ [insertedUpload env uid f rows]
  /\ List.length (uploadsOf uid (storeAfter env uid f rows db))
     = S (List.length (uploadsOf uid db))
  /\ ((5 <= List.length (uploadsOf uid db))%nat ->
      (5 < List.length (uploadsOf uid (storeAfter env uid f rows db)))%nat)
  /\ (insertRowsOk env = true ->
      outcomeOf env uid f rows db = Succeeded (newId env)).
Proof.
  assert (Hlen : List.length (uploadsOf uid (storeAfter env uid f rows db))
                 = S (List.length (uploadsOf uid db))).
  { rewrite (uploadsOf_storeAfter env uid f rows db Hrows Hins).
    rewrite (retention_failed env uid db Hfail), length_app. simpl. lia. }
  split; [| split; [exact Hlen | split]].
  - rewrite (uploads_storeAfter env uid f rows db Hrows Hins).
    now rewrite (retention_failed env uid db Hfail).
  - intros Hfive. rewrite Hlen. lia.
  - intros Hok. unfold outcomeOf, handleUpload.
    destruct rows as [|r rows]; [congruence |].
    now rewrite Hins, Hok.
Qed.

Lemma retention_enforcer_witness :
  [withFlowrate None] <> []
  /\ selectOk allOk = true /\ deleteOk allOk = true
  /\ insertUploadOk allOk = true /\ uniqueIds fullStore
  /\ selectUploadIds (selectOk allOk) 1 fullStore
  = Some (map Uploads.id (existing 1 fullStore))
  /\ newestFirst (existing 1 fullStore)
  /\ Permutation (existing 1 fullStore) (uploadsOf 1 fullStore)
  /\ ((5 <= List.length (uploadsOf 1 fullStore))%nat ->
      Permutation
        (uploadsOf 1 (storeAfter allOk 1 sampleFile [withFlowrate None] fullStore))
        (firstn 4 (existing 1 fullStore)
         ++ [insertedUpload allOk 1 sampleFile [withFlowrate None]])
      /\ List.length
           (uploadsOf 1 (storeAfter allOk 1 sampleFile [withFlowrate None] fullStore))
         = 5%nat)
  /\ ((List.length (uploadsOf 1 fullStore) < 5)%nat ->
      uploads (storeAfter allOk 1 sampleFile [withFlowrate None] fullStore)
      = uploads fullStore ++ [insertedUpload allOk 1 sampleFile [withFlowrate None]])
  /\ (List.length (uploadsOf 1 fullStore) = 5%nat ->
      exists oldest,
        In oldest (uploadsOf 1 fullStore)
        /\ (forall u, In u (uploadsOf 1 fullStore) ->
                      (Uploads.created_at oldest <= Uploads.created_at u)%Z)
        /\ uploads (storeAfter allOk 1 sampleFile [withFlowrate None] fullStore)
           = removeById (Uploads.id oldest) (uploads fullStore)
             ++ [insertedUpload allOk 1 sampleFile [withFlowrate None]]
        /\ List.length
             (uploads (storeAfter allOk 1 sampleFile [withFlowrate None] fullStore))
           = List.length (uploads fullStore)).
Proof.
  assert (Hpk : uniqueIds fullStore).
  { unfold uniqueIds. simpl.
    repeat (constructor; [simpl; intuition discriminate |]). constructor. }
  split; [discriminate |].
  split; [reflexivity |]. split; [reflexivity |]. split; [reflexivity |].
  split; [exact Hpk |].
  apply (retention_enforcer allOk 1 sampleFile [withFlowrate None] fullStore);
    [discriminate | reflexivity | reflexivity | reflexivity | exact Hpk].
Defined.

Lemma retention_failure_unchecked_witness :
  [withFlowrate None] <> []
  /\ (selectOk queryFails = false \/ deleteOk queryFails = false)
  /\ insertUploadOk queryFails = true
  /\ uploads (storeAfter queryFails 1 sampleFile [withFlowrate None] fullStore)
  = uploads fullStore ++ [insertedUpload queryFails 1 sampleFile [withFlowrate None]]
  /\ List.length
       (uploadsOf 1 (storeAfter queryFails 1 sampleFile [withFlowrate None] fullStore))
     = S (List.length (uploadsOf 1 fullStore))
  /\ ((5 <= List.length (uploadsOf 1 fullStore))%nat ->
      (5 < List.length
             (uploadsOf 1 (storeAfter queryFails 1 sampleFile [withFlowrate None]
                                      fullStore)))%nat)
  /\ (insertRowsOk queryFails = true ->
      outcomeOf queryFails 1 sampleFile [withFlowrate None] fullStore
      = Succeeded (newId queryFails)).
Proof.
  split; [discriminate |].
  split; [left; reflexivity |]. split; [reflexivity |].
  apply (retention_failure_unchecked
           queryFails 1 sampleFile [withFlowrate None] fullStore);
    [discriminate | left; reflexivity | reflexivity].
Defined.

(* ================================================================== *)
(** * [handleFile] and the [complete] callback *)
(* ================================================================== *)

Section FileIntake.

Lemma endsWith_app (s p : string) :
  endsWith s p = true <-> exists a, s = (a ++ p)%string.
Proof.
  induction s as [|c s IH].
  - cbn [endsWith]. rewrite orb_false_r, String.eqb_eq. split.
    + intros <-. now exists "".
    + intros [a Ha]. destruct a; simpl in Ha; [congruence | discriminate].
  - cbn [endsWith]. rewrite orb_true_iff, String.eqb_eq, IH. split.
    + intros [<- | [a ->]]; [now exists "" | now exists (String c a)].
    + intros [a Ha]. destruct a as [|c' a]; simpl in Ha.
      * now left.
      * right. injection Ha as -> ->. now exists a.
Qed.

Lemma mapped_nil_iff (data : list RawRecord) :
  mapped data = [] <-> Forall (fun row => bothUnknown (mapRow row)) data.
Proof.
  unfold mapped. induction data as [|row data IH]; simpl.
  - split; [constructor | reflexivity].
  - destruct (keepRow (mapRow row)) eqn:Hk.
    + split; [discriminate |]. intros H. inversion H as [|? ? Hrow _]; subst.
      apply keepRow_iff in Hk. contradiction.
    + rewrite IH. split.
      * intros H. constructor; [| exact H].
        destruct (String.eqb_spec (equipment_name (mapRow row)) Unknown) as [Hn|Hn];
        destruct (String.eqb_spec (equipment_type (mapRow row)) Unknown) as [Ht|Ht];
          unfold keepRow in Hk;
          try (apply String.eqb_neq in Hn; rewrite Hn in Hk);
          try (apply String.eqb_neq in Ht; rewrite Ht in Hk);
          try (rewrite orb_true_r in Hk); try discriminate Hk.
        now split.
      * intros H. now inversion H.
Qed.

End FileIntake.

(** X1.  A file goes on to the parser exactly when its name ends in ".csv"
    (as written, lower case) and it has at most 10485760 bytes; with the
    right ending and more bytes it is reported as too large, and with any
    other name as an invalid format, whatever its size. *)
Theorem handleFile_outcomes (file : File) :
  (handleFile file = Parsing
   <-> (exists stem, name file = (stem ++ ".csv")%string)
       /\ (size file <= 10485760)%N)
  /\ (handleFile file = Rejected "upload.fileTooLarge"
      <-> (exists stem, name file = (stem ++ ".csv")%string)
          /\ (10485760 < size file)%N)
  /\ (handleFile file = Rejected "upload.invalidFormat"
      <-> ~ exists stem, name file = (stem ++ ".csv")%string).
Proof.
  unfold handleFile. change maxFileSize with 10485760%N.
  rewrite <- endsWith_app.
  destruct (endsWith (name file) ".csv"); simpl;
    [destruct (N.ltb_spec 10485760 (size file)) |];
    repeat split; intros; try discriminate; try tauto; try lia;
    try (intuition (discriminate || lia)).
Qed.

(** X2.  When parsing completes, the page reports the invalid-format error
    exactly when every line normalises to a row with both identity fields
    unknown (an empty file included); otherwise there is no error, and in
    both cases the rows kept are the retained ones, in file order and no
    more than the lines read. *)
Theorem complete_error_iff (data : list RawRecord) :
  (error (complete data) = Some "upload.invalidFormat"
   <-> Forall (fun row => bothUnknown (mapRow row)) data)
  /\ (error (complete data) = None
      <-> exists row, In row data /\ ~ bothUnknown (mapRow row))
  /\ parsedData (complete data) = mapped data
  /\ (List.length (parsedData (complete data)) <= List.length data)%nat.
Proof.
  assert (Hpd : parsedData (complete data) = mapped data)
    by (unfold complete; now destruct (mapped data)).
  assert (Herr : error (complete data) = Some "upload.invalidFormat"
                 <-> mapped data = []).
  { unfold complete. destruct (mapped data); simpl; split; congruence. }
  split; [now rewrite Herr, mapped_nil_iff |].
  split; [| split; [exact Hpd |]].
  - split.
    + intros Hnone. destruct (mapped data) as [|r rows] eqn:Hm.
      * unfold complete in Hnone. rewrite Hm in Hnone. discriminate.
      * assert (Hin : In r (mapped data)) by (rewrite Hm; now left).
        unfold mapped in Hin. apply filter_In in Hin as [Hin Hk].
        apply in_map_iff in Hin as [row [<- Hrow]].
        exists row. split; [exact Hrow | now apply keepRow_iff].
    + intros [row [Hin Hrow]]. unfold complete.
      destruct (mapped data) as [|r rows] eqn:Hm; [| reflexivity].
      apply mapped_nil_iff in Hm. rewrite Forall_forall in Hm.
      elim Hrow. now apply Hm.
  - rewrite Hpd. unfold mapped.
    rewrite <- (length_map mapRow data). apply filter_length_le.
Qed.

(* ================================================================== *)
(** * Type distribution *)
(* ================================================================== *)

Section TypeDistribution.

Lemma countOf_bump (t k : string) (dist : list (string * nat)) :
  countOf k (bump t dist)
  = if String.eqb t k then S (countOf k dist) else countOf k dist.
Proof.
  induction dist as [|[k' n] dist IH]; simpl.
  - now destruct (String.eqb t k).
  - destruct (String.eqb_spec k' t) as [->|Hkt]; simpl.
    + now destruct (String.eqb t k).
    + destruct (String.eqb_spec k' k) as [->|Hkk]; [| exact IH].
      apply not_eq_sym, String.eqb_neq in Hkt. now rewrite Hkt.
Qed.

Lemma totalCount_bump (t : string) (dist : list (string * nat)) :
  totalCount (bump t dist) = S (totalCount dist).
Proof.
  induction dist as [|[k n] dist IH]; simpl; [reflexivity |].
  destruct (String.eqb k t); simpl; [reflexivity |].
  rewrite IH. lia.
Qed.

Lemma keys_bump (t : string) (dist : list (string * nat)) :
  map fst (bump t dist)
  = if existsb (String.eqb t) (map fst dist) then map fst dist
    else map fst dist ++ [t].
Proof.
  induction dist as [|[k n] dist IH]; simpl; [reflexivity |].
  rewrite (String.eqb_sym t k).
  destruct (String.eqb k t); simpl; [reflexivity |].
  rewrite IH. now destruct (existsb (String.eqb t) (map fst dist)).
Qed.

Lemma NoDup_keys_bump (t : string) (dist : list (string * nat)) :
  NoDup (map fst dist) -> NoDup (map fst (bump t dist)).
Proof.
  intros H. rewrite keys_bump.
  destruct (existsb (String.eqb t) (map fst dist)) eqn:Hin; [exact H |].
  apply NoDup_rev in H. rewrite <- (rev_involutive (map fst dist ++ [t])).
  apply NoDup_rev. rewrite rev_app_distr. simpl. constructor; [| exact H].
  intros Ht. apply in_rev in Ht.
  assert (existsb (String.eqb t) (map fst dist) = true); [| congruence].
  apply existsb_exists. exists t. split; [exact Ht | apply String.eqb_refl].
Qed.

Lemma positive_bump (t : string) (dist : list (string * nat)) :
  Forall (fun kn => (0 < snd kn)%nat) dist ->
  Forall (fun kn => (0 < snd kn)%nat) (bump t dist).
Proof.
  induction 1 as [|[k n] dist Hn Hdist IH]; simpl.
  - repeat constructor.
  - destruct (String.eqb k t); constructor; simpl in *; trivial; lia.
Qed.

(** What the loop over the rows keeps true of the distribution. *)
Lemma distribution_fold (rows : list ParsedRow) (dist : list (string * nat)) :
  let dist' := fold_left (fun acc d => bump (equipment_type d) acc) rows dist in
  (forall t, countOf t dist' = (countOf t dist + rowsOfType t rows)%nat)
  /\ totalCount dist' = (totalCount dist + List.length rows)%nat
  /\ (NoDup (map fst dist) -> NoDup (map fst dist'))
  /\ (Forall (fun kn => (0 < snd kn)%nat) dist ->
      Forall (fun kn => (0 < snd kn)%nat) dist').
Proof.
  revert dist. induction rows as [|d rows IH]; intros dist; simpl.
  - repeat split; intros; trivial; lia.
  - destruct (IH (bump (equipment_type d) dist)) as [Hc [Ht [Hk Hp]]].
    repeat split.
    + intros t. rewrite Hc, countOf_bump. unfold rowsOfType. simpl.
      destruct (String.eqb (equipment_type d) t); simpl; lia.
    + rewrite Ht, totalCount_bump. lia.
    + intros H. now apply Hk, NoDup_keys_bump.
    + intros H. now apply Hp, positive_bump.
Qed.

End TypeDistribution.

(** X3.  For rows whose types are not names inherited from
    [Object.prototype], the type distribution of the summary gives every
    type the number of rows of that type (0 for a type that does not
    occur), lists each type once with a positive count, and its counts add
    up to the number of rows. *)
Theorem typeDistribution_counts_rows (rows : list ParsedRow)
  (Hplain : Forall (fun d => plainName (equipment_type d) = true) rows) :
  (forall t, countOf t (typeDistribution (summarize rows)) = rowsOfType t rows)
  /\ NoDup (map fst (typeDistribution (summarize rows)))
  /\ Forall (fun kn => (0 < snd kn)%nat) (typeDistribution (summarize rows))
  /\ totalCount (typeDistribution (summarize rows)) = List.length rows.
Proof.
  destruct (distribution_fold rows []) as [Hc [Ht [Hk Hp]]].
  simpl in *. repeat split.
  - exact Hc.
  - apply Hk. constructor.
  - apply Hp. constructor.
  - exact Ht.
Qed.

Lemma typeDistribution_counts_rows_witness :
  Forall (fun d => plainName (equipment_type d) = true) pumpsAndValve
  /\ (forall t, countOf t (typeDistribution (summarize pumpsAndValve))
                = rowsOfType t pumpsAndValve)
  /\ NoDup (map fst (typeDistribution (summarize pumpsAndValve)))
  /\ Forall (fun kn => (0 < snd kn)%nat)
            (typeDistribution (summarize pumpsAndValve))
  /\ totalCount (typeDistribution (summarize pumpsAndValve))
     = List.length pumpsAndValve.
Proof.
  assert (H : Forall (fun d => plainName (equipment_type d) = true) pumpsAndValve)
    by (repeat constructor).
  split; [exact H | exact (typeDistribution_counts_rows pumpsAndValve H)].
Defined.

(* ================================================================== *)
(** * White space around cell values *)
(* ================================================================== *)

Section WhiteSpace.

Ltac by_code_unit c :=
  destruct c as [[] [] [] [] [] [] [] []];
  solve [reflexivity | discriminate].

Lemma white_not_digit (c : ascii) : isWhiteSpace c = true -> isDigit c = false.
Proof. by_code_unit c. Qed.

Lemma parseFloat_literal (s : string) : parseFloat s = parseLiteral (trimStart s).
Proof. reflexivity. Qed.

Lemma trimStart_idem (s : string) : trimStart (trimStart s) = trimStart s.
Proof.
  induction s as [|c s IH]; simpl; [reflexivity |].
  destruct (isWhiteSpace c) eqn:Hc; [exact IH |]. simpl. now rewrite Hc.
Qed.

Lemma readDigits_app (b : string) :
  whiteHead b = true ->
  forall s acc cnt,
    readDigits acc cnt (s ++ b)
    = (fst (fst (readDigits acc cnt s)), snd (fst (readDigits acc cnt s)),
       (snd (readDigits acc cnt s) ++ b)%string).
Proof.
  intros Hb. induction s as [|c s IH]; intros acc cnt; simpl.
  - destruct b as [|w b]; [reflexivity |]. simpl in Hb.
    cbn [readDigits]. now rewrite (white_not_digit w Hb).
  - destruct (isDigit c); [apply IH | reflexivity].
Qed.

Lemma readSign_app (b s : string) :
  whiteHead b = true ->
  readSign (s ++ b) = (fst (readSign s), (snd (readSign s) ++ b)%string).
Proof.
  intros Hb. destruct s as [|c s]; simpl.
  - destruct b as [|w b]; [reflexivity |]. simpl in Hb. revert Hb. by_code_unit w.
  - by_code_unit c.
Qed.

Lemma startsWith_app_white (b : string) :
  whiteHead b = true ->
  forall p s,
    forallb (fun c => negb (isWhiteSpace c)) (list_ascii_of_string p) = true ->
    startsWith (s ++ b) p = startsWith s p.
Proof.
  intros Hb. induction p as [|a p IH]; intros s Hp; [reflexivity |].
  simpl in Hp. apply andb_true_iff in Hp as [Ha Hp].
  destruct s as [|c s]; simpl.
  - destruct b as [|w b]; [reflexivity |]. simpl in Hb.
    destruct (Ascii.eqb_spec a w) as [->|_]; [| reflexivity].
    rewrite Hb in Ha. discriminate.
  - now rewrite IH.
Qed.

Lemma readExponent_app (b s : string) :
  whiteHead b = true -> readExponent (s ++ b) = readExponent s.
Proof.
  intros Hb. destruct s as [|c s]; simpl.
  - destruct b as [|w b]; [reflexivity |]. simpl in Hb. revert Hb.
    unfold readExponent. by_code_unit w.
  - destruct (Ascii.eqb c "e" || Ascii.eqb c "E"); [| reflexivity].
    rewrite (readSign_app b s Hb). destruct (readSign s) as [neg s2]. simpl.
    rewrite (readDigits_app b Hb s2 0%Z O).
    now destruct (readDigits 0 0 s2) as [[v n] r].
Qed.

Lemma fraction_app (b : string) (ip : Z) (s : string) :
  whiteHead b = true ->
  fraction ip (s ++ b)
  = (fst (fst (fraction ip s)), snd (fst (fraction ip s)),
     (snd (fraction ip s) ++ b)%string).
Proof.
  intros Hb. destruct s as [|c s]; simpl.
  - destruct b as [|w b]; [reflexivity |]. simpl in Hb. revert Hb.
    unfold fraction. by_code_unit w.
  - unfold fraction.
    destruct c as [[] [] [] [] [] [] [] []];
      solve [reflexivity | apply (readDigits_app b Hb)].
Qed.

(** What follows a literal, behind white space, is not read. *)
Lemma parseLiteral_app (b s : string) :
  whiteHead b = true -> parseLiteral (s ++ b) = parseLiteral s.
Proof.
  intros Hb. unfold parseLiteral.
  rewrite (readSign_app b s Hb). destruct (readSign s) as [neg s1].
  cbn [fst snd].
  rewrite (startsWith_app_white b Hb "Infinity" s1 eq_refl).
  destruct (startsWith s1 "Infinity"); [reflexivity |].
  rewrite (readDigits_app b Hb s1 0%Z O).
  destruct (readDigits 0 0 s1) as [[ip ni] s2]. cbn [fst snd].
  rewrite (fraction_app b ip s2 Hb).
  destruct (fraction ip s2) as [[m nf] s3]. cbn [fst snd].
  now rewrite (readExponent_app b s3 Hb).
Qed.

Lemma allWhiteSpace_whiteHead (b : string) :
  allWhiteSpace b = true -> whiteHead b = true.
Proof.
  destruct b as [|c b]; simpl; [reflexivity |].
  now intros H%andb_true_iff.
Qed.

Lemma trimEnd_split (t : string) :
  exists b, allWhiteSpace b = true /\ t = (trimEnd t ++ b)%string.
Proof.
  induction t as [|c t [b [Hb Ht]]]; simpl.
  - now exists "".
  - destruct (trimEnd t) as [|d u] eqn:Hu.
    + simpl in Ht. subst t. destruct (isWhiteSpace c) eqn:Hc.
      * exists (String c b). simpl. now rewrite Hc.
      * now exists b.
    + exists b. split; [exact Hb |]. simpl. now rewrite Ht at 1.
Qed.

Lemma trimStart_trimEnd (t : string) :
  trimStart t = t -> trimStart (trimEnd t) = trimEnd t.
Proof.
  destruct t as [|c t]; simpl; [reflexivity |].
  destruct (isWhiteSpace c) eqn:Hc.
  - intros H. exfalso.
    assert (Hf : firstChar (trimStart t) = Some c) by now rewrite H.
    apply trimStart_first in Hf. congruence.
  - intros _. destruct (trimEnd t); simpl; now rewrite Hc.
Qed.

(** [parseFloat] reads a value and its trimmed form alike. *)
Lemma parseFloat_trim (s : string) : parseFloat (trim s) = parseFloat s.
Proof.
  rewrite !parseFloat_literal. unfold trim.
  rewrite (trimStart_trimEnd _ (trimStart_idem s)).
  destruct (trimEnd_split (trimStart s)) as [b [Hb Ht]].
  rewrite Ht at 2. symmetry.
  apply parseLiteral_app, allWhiteSpace_whiteHead, Hb.
Qed.

Lemma sameTrimmed_keys (row row' : RawRecord) :
  sameTrimmed row row' -> keys row = keys row'.
Proof.
  induction 1 as [|[k v] [k' v'] row row' [Hk _] _ IH]; simpl; [reflexivity |].
  simpl in Hk. now rewrite Hk, IH.
Qed.

Lemma sameTrimmed_get (row row' : RawRecord) (c : string) :
  sameTrimmed row row' ->
  option_map trim (get row c) = option_map trim (get row' c).
Proof.
  induction 1 as [|[k v] [k' v'] row row' [Hk Hv] _ IH]; simpl; [reflexivity |].
  simpl in Hk, Hv. subst k'.
  destruct (String.eqb k c); simpl; [now rewrite Hv | exact IH].
Qed.

Lemma parseFloatOf_trim (v : option string) :
  parseFloatOf (option_map trim v) = parseFloatOf v.
Proof. destruct v as [s|]; simpl; [apply parseFloat_trim | reflexivity]. Qed.

End WhiteSpace.

(** X4.  Normalisation sees a cell through its trimmed text only: two
    records with the same keys whose values agree after trimming give the
    same normalised row, the numeric fields included, so white space
    before or after a reading does not change it. *)
Theorem mapRow_trim_insensitive (row row' : RawRecord)
  (Hsame : sameTrimmed row row') :
  mapRow row = mapRow row'.
Proof.
  unfold mapRow. rewrite <- (sameTrimmed_keys row row' Hsame).
  set (m := resolveColumns (keys row)).
  assert (Htext : forall col, textField row col = textField row' col).
  { intros [c|]; [| reflexivity]. unfold textField.
    now rewrite (sameTrimmed_get row row' c Hsame). }
  assert (Hnum : forall col, numberField row col = numberField row' col).
  { intros [c|]; [| reflexivity]. unfold numberField.
    rewrite <- (parseFloatOf_trim (get row c)), <- (parseFloatOf_trim (get row' c)).
    now rewrite (sameTrimmed_get row row' c Hsame). }
  unfold normalizeRow. now rewrite !Htext, !Hnum.
Qed.

Lemma mapRow_trim_insensitive_witness :
  sameTrimmed pump1 paddedPump1 /\ mapRow pump1 = mapRow paddedPump1.
Proof.
  assert (H : sameTrimmed pump1 paddedPump1).
  { repeat (constructor; [split; reflexivity |]). constructor. }
  split; [exact H | exact (mapRow_trim_insensitive pump1 paddedPump1 H)].
Defined.

(* ================================================================== *)
(** * [handleUpload] and the store *)
(* ================================================================== *)

Section UploadRun.

(** The retention step changes nothing or performs one delete. *)
Lemma retention_shape (env : StoreReplies) (uid : N) (db : Database) :
  retention env uid db = db
  \/ exists ids, retention env uid db = deleteUploads true uid ids db.
Proof.
  unfold retention, selectUploadIds.
  destruct (selectOk env); [| now left].
  destruct (5 <=? _)%nat; [| now left].
  cbv zeta. destruct (deleteOk env); [right; eauto | now left].
Qed.

Lemma retention_uploads_incl (env : StoreReplies) (uid : N) (db : Database)
  (u : Uploads.row) :
  In u (uploads (retention env uid db)) -> In u (uploads db).
Proof.
  destruct (retention_shape env uid db) as [->|[ids ->]]; [trivial |].
  simpl. intros H. now apply filter_In in H.
Qed.

Lemma retention_equipment_incl (env : StoreReplies) (uid : N) (db : Database)
  (e : EquipmentData.row) :
  In e (equipment_data (retention env uid db)) -> In e (equipment_data db).
Proof.
  destruct (retention_shape env uid db) as [->|[ids ->]]; [trivial |].
  simpl. intros H. now apply filter_In in H.
Qed.

Lemma retention_unique (env : StoreReplies) (uid : N) (db : Database) :
  uniqueIds db -> uniqueIds (retention env uid db).
Proof.
  destruct (retention_shape env uid db) as [->|[ids ->]]; [trivial |].
  unfold uniqueIds. simpl. apply NoDup_ids_filter.
Qed.

Lemma retention_references (env : StoreReplies) (uid : N) (db : Database) :
  referencesHold db -> referencesHold (retention env uid db).
Proof.
  destruct (retention_shape env uid db) as [->|[ids ->]]; [trivial |].
  unfold referencesHold. simpl. intros Href e He.
  apply filter_In in He as [He Hkept].
  destruct (Href e He) as [u [Hu Hid]].
  exists u. split; [| exact Hid].
  apply filter_In. split; [exact Hu |].
  destruct (deleted uid ids u) eqn:Hd; [| reflexivity].
  apply negb_true_iff in Hkept.
  assert (Hex : existsb (fun u0 => deleted uid ids u0
                                   && N.eqb (Uploads.id u0) (EquipmentData.upload_id e))
                        (uploads db) = true); [| congruence].
  apply existsb_exists. exists u. split; [exact Hu |].
  now rewrite Hd, Hid, N.eqb_refl.
Qed.

Lemma filter_within {A : Type} (P Q : A -> bool) (l : list A) :
  (forall x, P x = true -> Q x = true) ->
  filter P (filter Q l) = filter P l.
Proof.
  intros H. induction l as [|x l IH]; simpl; [reflexivity |].
  destruct (Q x) eqn:Hq; simpl.
  - now rewrite IH.
  - destruct (P x) eqn:Hp; [| exact IH].
    rewrite (H x Hp) in Hq. discriminate.
Qed.

Lemma retention_other_users (env : StoreReplies) (uid v : N) (db : Database) :
  v <> uid -> uploadsOf v (retention env uid db) = uploadsOf v db.
Proof.
  intros Hv.
  destruct (retention_shape env uid db) as [->|[ids ->]]; [trivial |].
  unfold uploadsOf. simpl. apply filter_within. intros u Hu.
  apply N.eqb_eq in Hu. unfold deleted.
  destruct (N.eqb_spec (Uploads.user_id u) uid) as [E|_]; [congruence | reflexivity].
Qed.

(** The retention step removes equipment rows only together with an
    upload of the user. *)
Lemma retention_rows_of_others (env : StoreReplies) (uid : N) (db : Database)
  (u : Uploads.row) :
  uniqueIds db -> In u (uploads db) -> Uploads.user_id u <> uid ->
  rowsOfUpload (Uploads.id u) (retention env uid db)
  = rowsOfUpload (Uploads.id u) db.
Proof.
  intros Hpk Hu Huser.
  destruct (retention_shape env uid db) as [->|[ids ->]]; [trivial |].
  unfold rowsOfUpload. simpl.
  induction (equipment_data db) as [|e l IH]; simpl; [reflexivity |].
  destruct (existsb _ (uploads db)) eqn:Hex; simpl.
  - destruct (N.eqb_spec (EquipmentData.upload_id e) (Uploads.id u)) as [E|_];
      [| exact IH].
    exfalso. apply existsb_exists in Hex as [w [Hw Hdel]].
    apply andb_true_iff in Hdel as [Hdel Hid].
    apply N.eqb_eq in Hid. unfold deleted in Hdel.
    apply andb_true_iff in Hdel as [Hwu _]. apply N.eqb_eq in Hwu.
    assert (w = u) by (apply (NoDup_ids_eq (uploads db)); trivial; congruence).
    subst w. contradiction.
  - destruct (N.eqb (EquipmentData.upload_id e) (Uploads.id u));
      [now f_equal | exact IH].
Qed.

(** The store after a run that gets past the guard. *)
Lemma storeAfter_shape (env : StoreReplies) (uid : N) (f : File)
  (rows : list ParsedRow) (db : Database) :
  rows <> [] ->
  storeAfter env uid f rows db
  = if insertUploadOk env then
      {| uploads := uploads (retention env uid db)
                    ++ [insertedUpload env uid f rows];
         equipment_data :=
           equipment_data (retention env uid db)
           ++ (if insertRowsOk env
               then equipmentRecords (insertedUpload env uid f rows) uid rows
               else []) |}
    else retention env uid db.
Proof.
  intros Hrows. unfold storeAfter, handleUpload.
  destruct rows as [|r rows]; [congruence |].
  destruct (insertUploadOk env); [| reflexivity].
  destruct (insertRowsOk env); simpl; [reflexivity |].
  now rewrite app_nil_r.
Qed.

Lemma equipmentRecords_upload (u : Uploads.row) (uid : N)
  (rows : list ParsedRow) (e : EquipmentData.row) :
  In e (equipmentRecords u uid rows) ->
  EquipmentData.upload_id e = Uploads.id u /\ EquipmentData.user_id e = uid.
Proof.
  unfold equipmentRecords. intros He.
  apply in_map_iff in He as [r [<- _]]. now split.
Qed.

Lemma rowsOfUpload_records (u : Uploads.row) (uid : N) (rows : list ParsedRow) :
  filter (fun e => N.eqb (EquipmentData.upload_id e) (Uploads.id u))
         (equipmentRecords u uid rows)
  = equipmentRecords u uid rows.
Proof.
  unfold equipmentRecords. induction rows as [|r rows IH]; simpl; [reflexivity |].
  now rewrite N.eqb_refl, IH.
Qed.

Lemma rowsOfUpload_records_other (u : Uploads.row) (uid j : N)
  (rows : list ParsedRow) :
  j <> Uploads.id u ->
  filter (fun e => N.eqb (EquipmentData.upload_id e) j)
         (equipmentRecords u uid rows) = [].
Proof.
  intros Hj. apply filter_nothing. intros e He.
  unfold equipmentRecords in He. apply in_map_iff in He as [r [<- _]]. simpl.
  apply N.eqb_neq. congruence.
Qed.

Lemma rowsOfUpload_fresh (env : StoreReplies) (uid i : N) (db : Database) :
  ~ In i (map EquipmentData.upload_id (equipment_data db)) ->
  rowsOfUpload i (retention env uid db) = [].
Proof.
  intros Hfresh. apply filter_nothing. intros e He.
  apply retention_equipment_incl in He. apply N.eqb_neq. intros E.
  apply Hfresh. rewrite <- E. now apply in_map.
Qed.

Lemma storeAfter_unique (env : StoreReplies) (uid : N) (f : File)
  (rows : list ParsedRow) (db : Database) :
  rows <> [] -> uniqueIds db ->
  ~ In (newId env) (map Uploads.id (uploads db)) ->
  uniqueIds (storeAfter env uid f rows db).
Proof.
  intros Hrows Hpk Hnew. rewrite (storeAfter_shape env uid f rows db Hrows).
  pose proof (retention_unique env uid db Hpk) as Hpk1.
  destruct (insertUploadOk env); [| exact Hpk1].
  unfold uniqueIds in *. cbn [uploads]. rewrite map_app.
  apply NoDup_app; [exact Hpk1 | repeat constructor; intros [] |].
  intros i Hi [<-|[]]. apply Hnew.
  apply in_map_iff in Hi as [u [Hid Hu]].
  apply in_map_iff. exists u. split; [exact Hid |].
  now apply retention_uploads_incl in Hu.
Qed.

Lemma storeAfter_rows (env : StoreReplies) (uid : N) (f : File)
  (rows : list ParsedRow) (db : Database) :
  rows <> [] -> insertUploadOk env = true -> insertRowsOk env = true ->
  ~ In (newId env) (map EquipmentData.upload_id (equipment_data db)) ->
  rowsOfUpload (newId env) (storeAfter env uid f rows db)
  = equipmentRecords (insertedUpload env uid f rows) uid rows.
Proof.
  intros Hrows Hins Hdata Hfresh.
  rewrite (storeAfter_shape env uid f rows db Hrows), Hins, Hdata.
  unfold rowsOfUpload. cbn [equipment_data]. rewrite filter_app.
  fold (rowsOfUpload (newId env) (retention env uid db)).
  rewrite (rowsOfUpload_fresh env uid (newId env) db Hfresh).
  apply (rowsOfUpload_records (insertedUpload env uid f rows)).
Qed.

End UploadRun.

(** X5.  Whatever the store answers, a run of [handleUpload] keeps the
    primary key of uploads (no two rows share an id), provided the id
    given to the new upload is unused, and keeps the foreign key of
    equipment rows (each belongs to an upload of the table). *)
Theorem handleUpload_keeps_keys (env : StoreReplies) (user : option N)
  (file : option File) (rows : list ParsedRow) (db : Database)
  (Hpk : uniqueIds db) (Href : referencesHold db)
  (Hnew : ~ In (newId env) (map Uploads.id (uploads db))) :
  uniqueIds (fst (handleUpload env user file rows db))
  /\ referencesHold (fst (handleUpload env user file rows db)).
Proof.
  destruct user as [uid|]; [| now split].
  destruct file as [f|]; [| now split].
  destruct rows as [|r rows']; [now split |].
  set (rows := r :: rows').
  change (fst (handleUpload env (Some uid) (Some f) rows db))
    with (storeAfter env uid f rows db).
  assert (Hrows : rows <> []) by discriminate.
  split; [exact (storeAfter_unique env uid f rows db Hrows Hpk Hnew) |].
  rewrite (storeAfter_shape env uid f rows db Hrows).
  pose proof (retention_references env uid db Href) as Href1.
  destruct (insertUploadOk env); [| exact Href1].
  unfold referencesHold in *. cbn [uploads equipment_data]. intros e He.
  apply in_app_or in He as [He|He].
  - destruct (Href1 e He) as [u [Hu Hid]].
    exists u. split; [apply in_or_app; now left | exact Hid].
  - exists (insertedUpload env uid f rows).
    split; [apply in_or_app; right; now left |].
    destruct (insertRowsOk env); [| contradiction].
    symmetry. now apply (equipmentRecords_upload _ uid rows e).
Qed.

Lemma handleUpload_keeps_keys_witness :
  uniqueIds fullStore /\ referencesHold fullStore
  /\ ~ In (newId allOk) (map Uploads.id (uploads fullStore))
  /\ uniqueIds (fst (handleUpload allOk (Some 1%N) (Some sampleFile)
                                  [withFlowrate None] fullStore))
  /\ referencesHold (fst (handleUpload allOk (Some 1%N) (Some sampleFile)
                                       [withFlowrate None] fullStore)).
Proof.
  assert (Hpk : uniqueIds fullStore).
  { unfold uniqueIds. simpl.
    repeat (constructor; [simpl; intuition discriminate |]). constructor. }
  assert (Href : referencesHold fullStore) by (intros e []).
  assert (Hnew : ~ In (newId allOk) (map Uploads.id (uploads fullStore)))
    by (simpl; intuition discriminate).
  split; [exact Hpk |]. split; [exact Href |]. split; [exact Hnew |].
  exact (handleUpload_keeps_keys allOk (Some 1%N) (Some sampleFile)
           [withFlowrate None] fullStore Hpk Href Hnew).
Defined.

(** X6.  A run of [handleUpload] for one user never changes the uploads of
    another user, whatever the store answers, and with unique ids it never
    removes an equipment row of an upload of another user. *)
Theorem handleUpload_other_users (env : StoreReplies) (uid v : N) (f : File)
  (rows : list ParsedRow) (db : Database)
  (Hv : v <> uid) (Hpk : uniqueIds db)
  (Hnew : ~ In (newId env) (map Uploads.id (uploads db))) :
  uploadsOf v (storeAfter env uid f rows db) = uploadsOf v db
  /\ forall u, In u (uploads db) -> Uploads.user_id u = v ->
               rowsOfUpload (Uploads.id u) (storeAfter env uid f rows db)
               = rowsOfUpload (Uploads.id u) db.
Proof.
  destruct rows as [|r rows']; [now split |].
  set (rows := r :: rows').
  rewrite storeAfter_shape by discriminate.
  split.
  - destruct (insertUploadOk env); [| now apply retention_other_users].
    unfold uploadsOf. simpl. rewrite filter_app. simpl.
    destruct (N.eqb_spec uid v) as [E|_]; [congruence |].
    rewrite app_nil_r. now apply (retention_other_users env uid v db).
  - intros u Hu Huser.
    assert (Hother : Uploads.user_id u <> uid) by congruence.
    pose proof (retention_rows_of_others env uid db u Hpk Hu Hother) as Hret.
    destruct (insertUploadOk env); [| exact Hret].
    unfold rowsOfUpload in *. cbn [equipment_data]. rewrite filter_app, Hret.
    destruct (insertRowsOk env); [| apply app_nil_r].
    rewrite rowsOfUpload_records_other; [apply app_nil_r |].
    cbn [insertedUpload Uploads.id]. intros E. apply Hnew. rewrite <- E.
    now apply in_map.
Qed.

Lemma handleUpload_other_users_witness :
  2%N <> 1%N /\ uniqueIds fullStore
  /\ ~ In (newId allOk) (map Uploads.id (uploads fullStore))
  /\ uploadsOf 2 (storeAfter allOk 1 sampleFile [withFlowrate None] fullStore)
     = uploadsOf 2 fullStore
  /\ forall u, In u (uploads fullStore) -> Uploads.user_id u = 2%N ->
               rowsOfUpload (Uploads.id u)
                 (storeAfter allOk 1 sampleFile [withFlowrate None] fullStore)
               = rowsOfUpload (Uploads.id u) fullStore.
Proof.
  assert (Hv : 2%N <> 1%N) by discriminate.
  assert (Hpk : uniqueIds fullStore).
  { unfold uniqueIds. simpl.
    repeat (constructor; [simpl; intuition discriminate |]). constructor. }
  assert (Hnew : ~ In (newId allOk) (map Uploads.id (uploads fullStore)))
    by (simpl; intuition discriminate).
  split; [exact Hv |]. split; [exact Hpk |]. split; [exact Hnew |].
  exact (handleUpload_other_users allOk 1 2 sampleFile [withFlowrate None]
           fullStore Hv Hpk Hnew).
Defined.

(** X7.  A run in which both inserts succeed, with an id no row uses yet
    and readings that are null or finite, ends in success with that id;
    the equipment rows of the new upload are the parsed rows, one for one
    and in order, under the user's id, as many as the upload's record
    count says. *)
Theorem successful_upload_rows (env : StoreReplies) (uid : N) (f : File)
  (rows : list ParsedRow) (db : Database)
  (Hrows : rows <> [])
  (Hins : insertUploadOk env = true) (Hdata : insertRowsOk env = true)
  (Hfresh : freshId (newId env) db)
  (Hcarried : forallb carriedRow rows = true) :
  outcomeOf env uid f rows db = Succeeded (newId env)
  /\ rowsOfUpload (newId env) (storeAfter env uid f rows db)
     = equipmentRecords (insertedUpload env uid f rows) uid rows
  /\ map (fun e => (EquipmentData.equipment_name e, EquipmentData.equipment_type e,
                    EquipmentData.flowrate e, EquipmentData.pressure e,
                    EquipmentData.temperature e))
         (rowsOfUpload (newId env) (storeAfter env uid f rows db))
     = map (fun r => (equipment_name r, equipment_type r,
                      flowrate r, pressure r, temperature r)) rows
  /\ Forall (fun e => EquipmentData.user_id e = uid)
            (rowsOfUpload (newId env) (storeAfter env uid f rows db))
  /\ List.length (rowsOfUpload (newId env) (storeAfter env uid f rows db))
     = Uploads.record_count (insertedUpload env uid f rows).
Proof.
  destruct Hfresh as [_ Hfresh].
  pose proof (storeAfter_rows env uid f rows db Hrows Hins Hdata Hfresh)
    as Hstored.
  split.
  { unfold outcomeOf, handleUpload. destruct rows; [congruence |].
    now rewrite Hins, Hdata. }
  split; [exact Hstored |]. rewrite Hstored. unfold equipmentRecords.
  split; [now rewrite map_map |].
  split; [apply Forall_map; now apply Forall_forall |].
  now rewrite length_map.
Qed.

Lemma successful_upload_rows_witness :
  [withFlowrate None] <> []
  /\ insertUploadOk allOk = true /\ insertRowsOk allOk = true
  /\ freshId (newId allOk) fullStore
  /\ forallb carriedRow [withFlowrate None] = true
  /\ outcomeOf allOk 1 sampleFile [withFlowrate None] fullStore
     = Succeeded (newId allOk)
  /\ rowsOfUpload (newId allOk)
       (storeAfter allOk 1 sampleFile [withFlowrate None] fullStore)
     = equipmentRecords (insertedUpload allOk 1 sampleFile [withFlowrate None])
                        1 [withFlowrate None]
  /\ map (fun e => (EquipmentData.equipment_name e, EquipmentData.equipment_type e,
                    EquipmentData.flowrate e, EquipmentData.pressure e,
                    EquipmentData.temperature e))
         (rowsOfUpload (newId allOk)
            (storeAfter allOk 1 sampleFile [withFlowrate None] fullStore))
     = map (fun r => (equipment_name r, equipment_type r,
                      flowrate r, pressure r, temperature r))
           [withFlowrate None]
  /\ Forall (fun e => EquipmentData.user_id e = 1%N)
            (rowsOfUpload (newId allOk)
               (storeAfter allOk 1 sampleFile [withFlowrate None] fullStore))
  /\ List.length
       (rowsOfUpload (newId allOk)
          (storeAfter allOk 1 sampleFile [withFlowrate None] fullStore))
     = Uploads.record_count
         (insertedUpload allOk 1 sampleFile [withFlowrate None]).
Proof.
  assert (Hfresh : freshId (newId allOk) fullStore)
    by (split; simpl; intuition discriminate).
  split; [discriminate |]. split; [reflexivity |]. split; [reflexivity |].
  split; [exact Hfresh |]. split; [reflexivity |].
  apply (successful_upload_rows allOk 1 sampleFile [withFlowrate None] fullStore);
    [discriminate | reflexivity | reflexivity | exact Hfresh | reflexivity].
Defined.

(** X8.  When the upload record is inserted and the insert of the rows
    fails, the run ends in failure but the upload record stays in the
    store: it announces as many records as there were parsed rows, at
    least one, while no equipment row belongs to it. *)
Theorem rows_insert_failure_leaves_upload (env : StoreReplies) (uid : N)
  (f : File) (rows : list ParsedRow) (db : Database)
  (Hrows : rows <> [])
  (Hins : insertUploadOk env = true) (Hdata : insertRowsOk env = false)
  (Hfresh : freshId (newId env) db) :
  outcomeOf env uid f rows db = Failed
  /\ In (insertedUpload env uid f rows)
        (uploads (storeAfter env uid f rows db))
  /\ Uploads.record_count (insertedUpload env uid f rows) = List.length rows
  /\ (0 < List.length rows)%nat
  /\ rowsOfUpload (newId env) (storeAfter env uid f rows db) = [].
Proof.
  destruct Hfresh as [_ Hfresh].
  split.
  { unfold outcomeOf, handleUpload. destruct rows; [congruence |].
    now rewrite Hins, Hdata. }
  rewrite (storeAfter_shape env uid f rows db Hrows), Hins, Hdata.
  split; [cbn [uploads]; apply in_or_app; right; now left |].
  split; [reflexivity |].
  split; [destruct rows; [congruence | simpl; lia] |].
  unfold rowsOfUpload. cbn [equipment_data]. rewrite app_nil_r.
  exact (rowsOfUpload_fresh env uid (newId env) db Hfresh).
Qed.

Lemma rows_insert_failure_leaves_upload_witness :
  [withFlowrate None] <> []
  /\ insertUploadOk rowsFail = true /\ insertRowsOk rowsFail = false
  /\ freshId (newId rowsFail) fullStore
  /\ outcomeOf rowsFail 1 sampleFile [withFlowrate None] fullStore = Failed
  /\ In (insertedUpload rowsFail 1 sampleFile [withFlowrate None])
        (uploads (storeAfter rowsFail 1 sampleFile [withFlowrate None] fullStore))
  /\ Uploads.record_count (insertedUpload rowsFail 1 sampleFile [withFlowrate None])
     = List.length [withFlowrate None]
  /\ (0 < List.length [withFlowrate None])%nat
  /\ rowsOfUpload (newId rowsFail)
       (storeAfter rowsFail 1 sampleFile [withFlowrate None] fullStore) = [].
Proof.
  assert (Hfresh : freshId (newId rowsFail) fullStore)
    by (split; simpl; intuition discriminate).
  split; [discriminate |]. split; [reflexivity |]. split; [reflexivity |].
  split; [exact Hfresh |].
  apply (rows_insert_failure_leaves_upload
           rowsFail 1 sampleFile [withFlowrate None] fullStore);
    [discriminate | reflexivity | reflexivity | exact Hfresh].
Defined.

(** X9.  The retention delete is not undone: when the query and the delete
    succeed for a user with five uploads or more and the insert of the new
    upload then fails, the run ends in failure and the user is left with
    the four newest of the former uploads only. *)
Theorem failed_insert_after_retention (env : StoreReplies) (uid : N)
  (f : File) (rows : list ParsedRow) (db : Database)
  (Hrows : rows <> [])
  (Hsel : selectOk env = true) (Hdel : deleteOk env = true)
  (Hins : insertUploadOk env = false)
  (Hpk : uniqueIds db)
  (Hfive : (5 <= List.length (uploadsOf uid db))%nat) :
  outcomeOf env uid f rows db = Failed
  /\ Permutation (uploadsOf uid (storeAfter env uid f rows db))
                 (firstn 4 (existing uid db))
  /\ List.length (uploadsOf uid (storeAfter env uid f rows db)) = 4%nat
  /\ (List.length (uploadsOf uid (storeAfter env uid f rows db))
      < List.length (uploadsOf uid db))%nat.
Proof.
  pose proof (retention_keeps_four env uid db Hsel Hdel Hpk Hfive) as Hkeep.
  assert (Hlen : List.length (uploadsOf uid (retention env uid db)) = 4%nat).
  { rewrite (Permutation_length Hkeep), length_firstn, length_existing. lia. }
  split.
  { unfold outcomeOf, handleUpload. destruct rows; [congruence |].
    now rewrite Hins. }
  rewrite (storeAfter_shape env uid f rows db Hrows), Hins.
  split; [exact Hkeep |]. split; [exact Hlen |]. rewrite Hlen. lia.
Qed.

Lemma failed_insert_after_retention_witness :
  [withFlowrate None] <> []
  /\ selectOk insertFails = true /\ deleteOk insertFails = true
  /\ insertUploadOk insertFails = false
  /\ uniqueIds fullStore
  /\ (5 <= List.length (uploadsOf 1 fullStore))%nat
  /\ outcomeOf insertFails 1 sampleFile [withFlowrate None] fullStore = Failed
  /\ Permutation
       (uploadsOf 1 (storeAfter insertFails 1 sampleFile [withFlowrate None] fullStore))
       (firstn 4 (existing 1 fullStore))
  /\ List.length
       (uploadsOf 1 (storeAfter insertFails 1 sampleFile [withFlowrate None] fullStore))
     = 4%nat
  /\ (List.length
        (uploadsOf 1 (storeAfter insertFails 1 sampleFile [withFlowrate None] fullStore))
      < List.length (uploadsOf 1 fullStore))%nat.
Proof.
  assert (Hpk : uniqueIds fullStore).
  { unfold uniqueIds. simpl.
    repeat (constructor; [simpl; intuition discriminate |]). constructor. }
  assert (Hfive : (5 <= List.length (uploadsOf 1 fullStore))%nat)
    by (simpl; lia).
  split; [discriminate |]. split; [reflexivity |]. split; [reflexivity |].
  split; [reflexivity |]. split; [exact Hpk |]. split; [exact Hfive |].
  apply (failed_insert_after_retention
           insertFails 1 sampleFile [withFlowrate None] fullStore);
    [discriminate | reflexivity | reflexivity | reflexivity | exact Hpk | exact Hfive].
Defined.

(* ================================================================== *)
(** * History, Visualization, Dashboard and Settings *)
(* ================================================================== *)

Section Pages.

Local Open Scope Z_scope.

Lemma insertDesc_front (u : Uploads.row) (l : list Uploads.row) :
  Forall (fun w => Uploads.created_at w <= Uploads.created_at u) l ->
  insertDesc u l = u :: l.
Proof.
  destruct l as [|v l]; simpl; [reflexivity |].
  intros H. inversion H as [|? ? Hv _]; subst.
  destruct (Z.ltb_spec (Uploads.created_at u) (Uploads.created_at v)); [lia | reflexivity].
Qed.

Lemma filter_insertDesc (p : Uploads.row -> bool) (u : Uploads.row)
  (l : list Uploads.row) :
  newestFirst l ->
  filter p (insertDesc u l)
  = if p u then insertDesc u (filter p l) else filter p l.
Proof.
  unfold newestFirst. induction 1 as [|v l Hl IH Hv]; simpl.
  - now destruct (p u).
  - destruct (Z.ltb_spec (Uploads.created_at u) (Uploads.created_at v)) as [Huv|Huv];
      simpl.
    + rewrite IH. destruct (p v), (p u); simpl; trivial.
      destruct (Z.ltb_spec (Uploads.created_at u) (Uploads.created_at v)); [reflexivity | lia].
    + destruct (p u) eqn:Hpu; [| reflexivity].
      symmetry. apply insertDesc_front.
      assert (Hall : Forall (fun w => Uploads.created_at w <= Uploads.created_at u)
                            (v :: l)).
      { constructor; [exact Huv |].
        eapply Forall_impl; [| exact Hv]. intros w Hw. simpl in Hw. lia. }
      change (if p v then v :: filter p l else filter p l) with (filter p (v :: l)).
      apply Forall_forall. intros w Hw. apply filter_In in Hw as [Hw _].
      rewrite Forall_forall in Hall. now apply Hall.
Qed.

(** Ordering the kept rows is keeping the ordered rows. *)
Lemma orderBy_filter (p : Uploads.row -> bool) (l : list Uploads.row) :
  orderByCreatedAtDesc (filter p l) = filter p (orderByCreatedAtDesc l).
Proof.
  induction l as [|u l IH]; simpl; [reflexivity |].
  rewrite (filter_insertDesc p u _ (orderBy_sorted l)).
  destruct (p u); simpl; now rewrite IH.
Qed.

Lemma existing_head_newest (uid : N) (db : Database) (u : Uploads.row)
  (l : list Uploads.row) :
  existing uid db = u :: l ->
  In u (uploadsOf uid db)
  /\ forall w, In w (uploadsOf uid db) ->
               Uploads.created_at w <= Uploads.created_at u.
Proof.
  intros Hex.
  pose proof (orderBy_perm (uploadsOf uid db)) as Hperm.
  pose proof (orderBy_sorted (uploadsOf uid db)) as Hsorted.
  fold (existing uid db) in Hperm, Hsorted. rewrite Hex in Hperm, Hsorted.
  split; [apply (Permutation_in _ Hperm); now left |].
  intros w Hw. apply (Permutation_in _ (Permutation_sym Hperm)) in Hw.
  inversion Hsorted as [|? ? _ Hall]; subst.
  destruct Hw as [<-|Hw]; [lia |].
  rewrite Forall_forall in Hall. now apply Hall.
Qed.

Lemma existing_nil (uid : N) (db : Database) :
  existing uid db = [] <-> uploadsOf uid db = [].
Proof.
  split; intros H.
  - apply length_zero_iff_nil. rewrite <- length_existing, H. reflexivity.
  - apply length_zero_iff_nil. rewrite length_existing, H. reflexivity.
Qed.

End Pages.

(** X10.  History: after a successful delete of one of the user's uploads
    the list shown is the former list without that upload, the others in
    their former order, and no equipment row of that upload is left; an id
    that belongs to no upload of the user removes nothing, and uploads of
    other users are never removed. *)
Theorem history_delete_then_list (uid i : N) (db : Database) :
  snd (History.deleteUpload true true uid i db)
  = removeById i (History.fetchUploads true uid db)
  /\ (forall u, In u (uploadsOf uid db) -> Uploads.id u = i ->
                rowsOfUpload i (fst (History.deleteUpload true true uid i db)) = []
                /\ ~ In u (uploads (fst (History.deleteUpload true true uid i db))))
  /\ (~ In i (map Uploads.id (uploadsOf uid db)) ->
      fst (History.deleteUpload true true uid i db) = db)
  /\ (forall v ok ok', v <> uid ->
        uploadsOf v (fst (History.deleteUpload ok ok' uid i db)) = uploadsOf v db).
Proof.
  unfold History.deleteUpload, History.fetchUploads, selectUploads, orEmpty.
  cbn [fst snd].
  assert (Hsingle : forall u : Uploads.row,
             existsb (N.eqb (Uploads.id u)) [i] = N.eqb (Uploads.id u) i)
    by (intros u; simpl; apply orb_false_r).
  split; [| split; [| split]].
  - rewrite uploadsOf_deleteUploads, orderBy_filter. unfold removeById.
    apply filter_ext. intros u. now rewrite Hsingle.
  - intros u Hu Hid. unfold uploadsOf in Hu. apply filter_In in Hu as [Hu Huser].
    assert (Hdel : deleted uid [i] u = true).
    { unfold deleted. now rewrite Huser, Hsingle, Hid, N.eqb_refl. }
    split.
    + apply filter_nothing. intros e He. simpl in He.
      apply filter_In in He as [_ Hkept]. apply N.eqb_neq. intros E.
      apply negb_true_iff in Hkept.
      assert (Hex : existsb (fun u0 => deleted uid [i] u0
                                       && N.eqb (Uploads.id u0)
                                                (EquipmentData.upload_id e))
                            (uploads db) = true); [| congruence].
      apply existsb_exists. exists u. split; [exact Hu |].
      now rewrite Hdel, Hid, E, N.eqb_refl.
    + simpl. intros Hin. apply filter_In in Hin as [_ Hkept].
      now rewrite Hdel in Hkept.
  - intros Hnone.
    assert (Hnodel : forall u, In u (uploads db) -> deleted uid [i] u = false).
    { intros u Hu. unfold deleted. rewrite Hsingle.
      destruct (N.eqb_spec (Uploads.user_id u) uid) as [Huser|_]; [| reflexivity].
      destruct (N.eqb_spec (Uploads.id u) i) as [Hid|_]; [| reflexivity].
      exfalso. apply Hnone. rewrite <- Hid. apply in_map.
      unfold uploadsOf. apply filter_In. split; [exact Hu |].
      now apply N.eqb_eq. }
    unfold deleteUploads. destruct db as [ups eqs]. simpl in *. f_equal.
    + apply forallb_filter_id, forallb_forall. intros u Hu.
      now rewrite (Hnodel u Hu).
    + apply forallb_filter_id, forallb_forall. intros e He.
      apply negb_true_iff.
      destruct (existsb _ ups) eqn:Hex; [| reflexivity].
      apply existsb_exists in Hex as [u [Hu Hd]].
      rewrite (Hnodel u Hu) in Hd. discriminate.
  - intros v ok ok' Hv. destruct ok; [| reflexivity].
    unfold uploadsOf. simpl. apply filter_within. intros u Hu.
    apply N.eqb_eq in Hu. unfold deleted.
    destruct (N.eqb_spec (Uploads.user_id u) uid) as [E|_];
      [congruence | reflexivity].
Qed.

(** X11.  Visualization: with nothing selected beforehand, a successful
    fetch selects an upload of the user that no other is newer than, and
    that upload is the current one; a user without uploads gets an empty
    list and no selection; a selection made beforehand is kept; a failed
    fetch shows an empty list and leaves the selection as it was. *)
Theorem visualization_default_selection (uid : N) (db : Database) :
  (uploadsOf uid db = [] ->
   Visualization.fetchUploads true uid None db = ([], None))
  /\ (uploadsOf uid db <> [] ->
      exists u,
        snd (Visualization.fetchUploads true uid None db) = Some (Uploads.id u)
        /\ In u (uploadsOf uid db)
        /\ (forall w, In w (uploadsOf uid db) ->
                      (Uploads.created_at w <= Uploads.created_at u)%Z)
        /\ Visualization.currentUpload
             (fst (Visualization.fetchUploads true uid None db))
             (snd (Visualization.fetchUploads true uid None db)) = Some u)
  /\ (forall ok i,
        snd (Visualization.fetchUploads ok uid (Some i) db) = Some i)
  /\ (forall sel, Visualization.fetchUploads false uid sel db = ([], sel)).
Proof.
  unfold Visualization.fetchUploads, selectUploads, orEmpty.
  fold (existing uid db). cbn [fst snd].
  split; [| split; [| split]].
  - intros Hnone. apply existing_nil in Hnone. now rewrite Hnone.
  - intros Hsome. destruct (existing uid db) as [|u l] eqn:Hex.
    + apply existing_nil in Hex. contradiction.
    + exists u. destruct (existing_head_newest uid db u l Hex) as [Hin Hnew].
      repeat split; trivial.
      unfold Visualization.currentUpload. simpl. now rewrite N.eqb_refl.
  - intros ok i. now destruct ok.
  - intros sel. now destruct sel.
Qed.

(** X12.  After a successful upload the page navigates to Visualization
    with the id of the new upload: with unique ids, an unused new id and
    readings that are null or finite, a successful fetch there keeps that
    selection and finds the new upload as the current one, and the data
    fetched for it are the rows just stored. *)
Theorem visualization_after_upload (env : StoreReplies) (uid : N) (f : File)
  (rows : list ParsedRow) (db : Database)
  (Hrows : rows <> [])
  (Hins : insertUploadOk env = true) (Hdata : insertRowsOk env = true)
  (Hpk : uniqueIds db) (Hfresh : freshId (newId env) db)
  (Hcarried : forallb carriedRow rows = true) :
  outcomeOf env uid f rows db = Succeeded (newId env)
  /\ snd (Visualization.fetchUploads true uid (Some (newId env))
            (storeAfter env uid f rows db)) = Some (newId env)
  /\ Visualization.currentUpload
       (fst (Visualization.fetchUploads true uid (Some (newId env))
               (storeAfter env uid f rows db)))
       (Some (newId env))
     = Some (insertedUpload env uid f rows)
  /\ Visualization.fetchData true uid (newId env) (storeAfter env uid f rows db)
     = equipmentRecords (insertedUpload env uid f rows) uid rows.
Proof.
  destruct Hfresh as [Hnew Hfresh].
  split.
  { unfold outcomeOf, handleUpload. destruct rows; [congruence |].
    now rewrite Hins, Hdata. }
  split; [reflexivity |]. split.
  - unfold Visualization.fetchUploads, selectUploads, orEmpty,
      Visualization.currentUpload. cbn [fst].
    set (db' := storeAfter env uid f rows db).
    fold (existing uid db').
    assert (Hin : In (insertedUpload env uid f rows) (existing uid db')).
    { apply (Permutation_in _ (Permutation_sym (orderBy_perm _))).
      unfold db'. rewrite (uploadsOf_storeAfter env uid f rows db Hrows Hins).
      apply in_or_app. right. now left. }
    destruct (find (fun u => N.eqb (Uploads.id u) (newId env)) (existing uid db'))
      as [x|] eqn:Hfind.
    + apply find_some in Hfind as [Hx Hid]. apply N.eqb_eq in Hid. f_equal.
      apply (NoDup_ids_eq (uploads db')).
      * exact (storeAfter_unique env uid f rows db Hrows Hpk Hnew).
      * apply (Permutation_in _ (orderBy_perm _)) in Hx.
        unfold uploadsOf in Hx. now apply filter_In in Hx.
      * apply (Permutation_in _ (orderBy_perm _)) in Hin.
        unfold uploadsOf in Hin. now apply filter_In in Hin.
      * exact Hid.
    + apply find_None_Forall in Hfind. rewrite Forall_forall in Hfind.
      specialize (Hfind _ Hin). simpl in Hfind. now rewrite N.eqb_refl in Hfind.
  - unfold Visualization.fetchData, equipmentOf.
    pose proof (storeAfter_rows env uid f rows db Hrows Hins Hdata Hfresh) as Hst.
    unfold rowsOfUpload in Hst. rewrite <- Hst.
    set (l := equipment_data (storeAfter env uid f rows db)) in *.
    assert (Huser : forall e, In e l ->
               N.eqb (EquipmentData.upload_id e) (newId env) = true ->
               N.eqb (EquipmentData.user_id e) uid = true).
    { intros e He Hid. apply N.eqb_eq.
      apply (equipmentRecords_upload (insertedUpload env uid f rows) uid rows e).
      rewrite <- Hst. apply filter_In. now split. }
    clear Hst. induction l as [|e l IH]; simpl; [reflexivity |].
    destruct (N.eqb (EquipmentData.user_id e) uid) eqn:Hu; simpl.
    + rewrite IH; [reflexivity |]. intros e' He'. apply Huser. now right.
    + destruct (N.eqb (EquipmentData.upload_id e) (newId env)) eqn:Hid.
      * rewrite (Huser e (or_introl eq_refl) Hid) in Hu. discriminate.
      * apply IH. intros e' He'. apply Huser. now right.
Qed.

Lemma visualization_after_upload_witness :
  [withFlowrate None] <> []
  /\ insertUploadOk allOk = true /\ insertRowsOk allOk = true
  /\ uniqueIds fullStore /\ freshId (newId allOk) fullStore
  /\ forallb carriedRow [withFlowrate None] = true
  /\ outcomeOf allOk 1 sampleFile [withFlowrate None] fullStore
     = Succeeded (newId allOk)
  /\ snd (Visualization.fetchUploads true 1 (Some (newId allOk))
            (storeAfter allOk 1 sampleFile [withFlowrate None] fullStore))
     = Some (newId allOk)
  /\ Visualization.currentUpload
       (fst (Visualization.fetchUploads true 1 (Some (newId allOk))
               (storeAfter allOk 1 sampleFile [withFlowrate None] fullStore)))
       (Some (newId allOk))
     = Some (insertedUpload allOk 1 sampleFile [withFlowrate None])
  /\ Visualization.fetchData true 1 (newId allOk)
       (storeAfter allOk 1 sampleFile [withFlowrate None] fullStore)
     = equipmentRecords (insertedUpload allOk 1 sampleFile [withFlowrate None])
                        1 [withFlowrate None].
Proof.
  assert (Hpk : uniqueIds fullStore).
  { unfold uniqueIds. simpl.
    repeat (constructor; [simpl; intuition discriminate |]). constructor. }
  assert (Hfresh : freshId (newId allOk) fullStore)
    by (split; simpl; intuition discriminate).
  split; [discriminate |]. split; [reflexivity |]. split; [reflexivity |].
  split; [exact Hpk |]. split; [exact Hfresh |]. split; [reflexivity |].
  apply (visualization_after_upload allOk 1 sampleFile [withFlowrate None] fullStore);
    [discriminate | reflexivity | reflexivity | exact Hpk | exact Hfresh
    | reflexivity].
Defined.

Lemma records_readingsTruthy (raw : list RawRecord) (uploadData : Uploads.row)
  (uid : N) :
  Forall readingsTruthy (equipmentRecords uploadData uid (mapped raw)).
Proof.
  unfold equipmentRecords. apply Forall_map.
  apply Forall_forall. intros r Hr. unfold mapped in Hr.
  apply filter_In in Hr as [Hr _]. apply in_map_iff in Hr as [row [<- _]].
  intros x [H|[H|H]]; simpl in H; apply numberField_Some in H; tauto.
Qed.

(** X13.  The scatter chart has one point for every stored row with both
    a flowrate and a pressure, in row order, as long as no stored reading
    is falsy; the records the Upload page builds for the store are of that
    kind, since a reading it keeps is never 0 nor NaN. *)
Theorem scatter_points_of_stored_rows (data : list EquipmentData.row)
  (Htruthy : Forall readingsTruthy data) :
  Visualization.scatterPoints data = storedPairs data
  /\ forall raw uploadData uid,
       Forall readingsTruthy (equipmentRecords uploadData uid (mapped raw)).
Proof.
  split.
  - unfold Visualization.scatterPoints, storedPairs.
    induction Htruthy as [|d data Hd _ IH]; simpl; [reflexivity |].
    destruct (EquipmentData.pressure d) as [y|] eqn:Hy; simpl.
    + rewrite (Hd y (or_intror (or_introl Hy))). simpl.
      destruct (EquipmentData.flowrate d) as [x|] eqn:Hx; simpl.
      * rewrite (Hd x (or_introl Hx)). simpl. now rewrite IH, Hx, Hy.
      * exact IH.
    + destruct (EquipmentData.flowrate d); exact IH.
  - exact records_readingsTruthy.
Qed.

Lemma scatter_points_of_stored_rows_witness :
  Forall readingsTruthy (equipmentRecords (upload 1 1 30) 1 (mapped twoPumps))
  /\ Visualization.scatterPoints
       (equipmentRecords (upload 1 1 30) 1 (mapped twoPumps))
     = storedPairs (equipmentRecords (upload 1 1 30) 1 (mapped twoPumps))
  /\ forall raw uploadData uid,
       Forall readingsTruthy (equipmentRecords uploadData uid (mapped raw)).
Proof.
  assert (H : Forall readingsTruthy
                     (equipmentRecords (upload 1 1 30) 1 (mapped twoPumps)))
    by apply records_readingsTruthy.
  split; [exact H |].
  exact (scatter_points_of_stored_rows
           (equipmentRecords (upload 1 1 30) 1 (mapped twoPumps)) H).
Defined.

(** X14.  Dashboard: when both queries succeed, the upload count shown is
    the number of the user's uploads capped at 5, the recent uploads are
    the five newest (none left out is newer than one shown), the last
    upload date is the greatest creation time, absent exactly when the
    user has no upload, and the equipment count is the number of the
    user's equipment rows; when either query fails nothing is set. *)
Theorem dashboard_statistics (uid : N) (db : Database) :
  (exists stats recent,
     Dashboard.fetchDashboardData true true uid db = Some (stats, recent)
     /\ Dashboard.totalUploads stats = Nat.min 5 (List.length (uploadsOf uid db))
     /\ Dashboard.totalEquipment stats = List.length (equipmentOf uid db)
     /\ recent = firstn 5 (existing uid db)
     /\ (forall x y, In x recent -> In y (uploadsOf uid db) -> ~ In y recent ->
                     (Uploads.created_at y <= Uploads.created_at x)%Z)
     /\ (Dashboard.lastUploadDate stats = None <-> uploadsOf uid db = [])
     /\ (forall t, Dashboard.lastUploadDate stats = Some t ->
                   (exists u, In u (uploadsOf uid db) /\ Uploads.created_at u = t)
                   /\ forall w, In w (uploadsOf uid db) ->
                                (Uploads.created_at w <= t)%Z))
  /\ (forall ok, Dashboard.fetchDashboardData false ok uid db = None
                 /\ Dashboard.fetchDashboardData ok false uid db = None).
Proof.
  split.
  - unfold Dashboard.fetchDashboardData, selectUploads. cbn [option_map].
    fold (existing uid db).
    eexists. eexists. split; [reflexivity |]. cbn [Dashboard.totalUploads
      Dashboard.totalEquipment Dashboard.lastUploadDate].
    split; [now rewrite length_firstn, length_existing |].
    split; [reflexivity |]. split; [reflexivity |]. split; [| split].
    + intros x y Hx Hy Hny.
      apply (newestFirst_split (existing uid db) 5 x y (orderBy_sorted _) Hx).
      apply (Permutation_in _ (Permutation_sym (orderBy_perm _))) in Hy.
      fold (existing uid db) in Hy.
      rewrite <- (firstn_skipn 5 (existing uid db)) in Hy.
      apply in_app_or in Hy as [Hy|Hy]; [contradiction | exact Hy].
    + rewrite <- existing_nil.
      destruct (existing uid db) as [|u l]; simpl; split; congruence.
    + intros t Ht. destruct (existing uid db) as [|u l] eqn:Hex;
        simpl in Ht; [discriminate |]. injection Ht as <-.
      destruct (existing_head_newest uid db u l Hex) as [Hin Hnew].
      split; [now exists u | exact Hnew].
  - intros ok. split; [reflexivity |].
    unfold Dashboard.fetchDashboardData. now destruct (option_map _ _).
Qed.

(** X15.  Settings: when both deletes of "delete all data" succeed, the
    user has no upload and no equipment row left and the statistics
    reloaded afterwards show 0 and 0; uploads of other users are never
    touched, their equipment rows go only if attached to an upload of the
    user, and the foreign key of equipment rows is kept; the delete of the
    uploads alone already removes every equipment row of the user's
    uploads. *)
Theorem delete_all_data (uid : N) (db : Database) :
  uploadsOf uid (Settings.handleDeleteAllData true true uid db) = []
  /\ equipmentOf uid (Settings.handleDeleteAllData true true uid db) = []
  /\ Settings.loadDataStats true true uid
       (Settings.handleDeleteAllData true true uid db) = (O, O)
  /\ (forall v ok ok', v <> uid ->
        uploadsOf v (Settings.handleDeleteAllData ok ok' uid db) = uploadsOf v db)
  /\ (forall e, In e (equipment_data db) ->
                EquipmentData.user_id e <> uid ->
                (forall u, In u (uploads db) ->
                           Uploads.id u = EquipmentData.upload_id e ->
                           Uploads.user_id u <> uid) ->
                In e (equipment_data (Settings.handleDeleteAllData true true uid db)))
  /\ (referencesHold db ->
      referencesHold (Settings.handleDeleteAllData true true uid db))
  /\ (forall ok e u,
        In e (equipment_data (Settings.handleDeleteAllData ok true uid db)) ->
        In u (uploadsOf uid db) ->
        Uploads.id u <> EquipmentData.upload_id e).
Proof.
  assert (Hups : uploadsOf uid (Settings.handleDeleteAllData true true uid db) = []).
  { unfold uploadsOf. simpl. apply filter_nothing. intros u Hu.
    apply filter_In in Hu as [_ Hu]. now apply negb_true_iff in Hu. }
  assert (Heqs : equipmentOf uid (Settings.handleDeleteAllData true true uid db) = []).
  { unfold equipmentOf. simpl. apply filter_nothing. intros e He.
    apply filter_In in He as [He _]. apply filter_In in He as [_ He].
    now apply negb_true_iff in He. }
  split; [exact Hups |]. split; [exact Heqs |].
  split; [unfold Settings.loadDataStats; now rewrite Hups, Heqs |].
  split; [| split; [| split]].
  - intros v ok ok' Hv. unfold Settings.handleDeleteAllData.
    assert (H1 : uploads (Settings.deleteEquipmentOf ok uid db) = uploads db)
      by now destruct ok.
    unfold uploadsOf. destruct ok'; simpl; [| now rewrite H1].
    rewrite H1. apply filter_within. intros u Hu. apply N.eqb_eq in Hu.
    apply negb_true_iff, N.eqb_neq. congruence.
  - intros e He Huser Hup. simpl. apply filter_In. split.
    + apply filter_In. split; [exact He |]. now apply negb_true_iff, N.eqb_neq.
    + apply negb_true_iff. destruct (existsb _ (uploads db)) eqn:Hex; [| reflexivity].
      apply existsb_exists in Hex as [u [Hu Hd]].
      apply andb_true_iff in Hd as [Hd1 Hd2].
      apply N.eqb_eq in Hd1, Hd2. elim (Hup u Hu Hd2 Hd1).
  - unfold referencesHold. simpl. intros Href e He.
    apply filter_In in He as [He Hkept]. apply filter_In in He as [He _].
    destruct (Href e He) as [u [Hu Hid]].
    exists u. split; [| exact Hid]. apply filter_In. split; [exact Hu |].
    apply negb_true_iff. destruct (N.eqb (Uploads.user_id u) uid) eqn:Hd;
      [| reflexivity].
    apply negb_true_iff in Hkept.
    assert (Hex : existsb (fun u0 => N.eqb (Uploads.user_id u0) uid
                                     && N.eqb (Uploads.id u0)
                                              (EquipmentData.upload_id e))
                          (uploads db) = true); [| congruence].
    apply existsb_exists. exists u. split; [exact Hu |].
    now rewrite Hd, Hid, N.eqb_refl.
  - intros ok e u He Hu Hid. unfold Settings.handleDeleteAllData in He.
    assert (H1 : uploads (Settings.deleteEquipmentOf ok uid db) = uploads db)
      by now destruct ok.
    simpl in He. rewrite H1 in He. apply filter_In in He as [_ Hkept].
    apply negb_true_iff in Hkept.
    assert (Hex : existsb (fun u0 => N.eqb (Uploads.user_id u0) uid
                                     && N.eqb (Uploads.id u0)
                                              (EquipmentData.upload_id e))
                          (uploads db) = true); [| congruence].
    unfold uploadsOf in Hu. apply filter_In in Hu as [Hu Huser].
    apply existsb_exists. exists u. split; [exact Hu |].
    now rewrite Huser, Hid, N.eqb_refl.
Qed.

(* ================================================================== *)
(** * The data export and the greeting *)
(* ================================================================== *)

Section ExportFacts.

Variable numberToString : number -> string.

Lemma countChar_app (c : ascii) (a b : string) :
  countChar c (a ++ b)%string = (countChar c a + countChar c b)%nat.
Proof. induction a as [|x a IH]; simpl; [reflexivity | rewrite IH; lia]. Qed.

Lemma countChar_join (c sep : ascii) (l : list string) :
  l <> [] ->
  countChar c (join (String sep EmptyString) l)
  = ((if Ascii.eqb sep c then List.length l - 1 else 0)
     + list_sum (map (countChar c) l))%nat.
Proof.
  induction l as [|a l IH]; [congruence |]. intros _.
  destruct l as [|b l].
  - simpl. destruct (Ascii.eqb sep c); lia.
  - change (join (String sep EmptyString) (a :: b :: l))
      with (a ++ String sep EmptyString ++ join (String sep EmptyString) (b :: l))%string.
    rewrite !countChar_app, IH by discriminate.
    cbn [countChar map List.length]. unfold list_sum. cbn [fold_right].
    destruct (Ascii.eqb sep c); lia.
Qed.

Lemma countChar_exportLine (c : ascii) (row : string -> Cell) :
  countChar c (exportLine numberToString row)
  = ((if Ascii.eqb comma c then 5 else 0) + countInCells numberToString c row)%nat.
Proof.
  unfold exportLine, countInCells.
  rewrite countChar_join by discriminate. now rewrite map_map.
Qed.

End ExportFacts.

(** X16.  The export writes cells as they are, without quoting: an empty
    data set gives the empty text, header line included; otherwise there
    is the header line and one line per row, a line has five commas more
    than its cells contain, and the text has as many line feeds as there
    are rows and line feeds inside cells.  The header line names the five
    columns so that the Upload page resolves each field to its own
    column. *)
Theorem export_is_unquoted (numberToString : number -> string)
  (data : list (string -> Cell)) :
  convertToCSV numberToString [] = EmptyString
  /\ (forall row,
        countChar comma (exportLine numberToString row)
        = (5 + countInCells numberToString comma row)%nat)
  /\ (data <> [] ->
      countChar newline (convertToCSV numberToString data)
      = (List.length data
         + list_sum (map (countInCells numberToString newline) data))%nat)
  /\ resolveColumns exportHeaders
     = {| nameCol := Some "equipment_name"; typeCol := Some "equipment_type";
          flowCol := Some "flowrate"; pressCol := Some "pressure";
          tempCol := Some "temperature" |}.
Proof.
  split; [reflexivity |].
  split; [intros row; now rewrite countChar_exportLine |].
  split; [| reflexivity].
  intros Hdata. destruct data as [|r data]; [congruence |].
  unfold convertToCSV. rewrite countChar_join by discriminate.
  change (Ascii.eqb newline newline) with true.
  cbn [map list_sum List.length].
  change (countChar newline (join (String comma EmptyString) exportHeaders)) with O.
  rewrite length_map, map_map.
  assert (Hlines : forall l,
             map (fun x => countChar newline (exportLine numberToString x)) l
             = map (countInCells numberToString newline) l).
  { intros l. apply map_ext. intros row. rewrite countChar_exportLine.
    reflexivity. }
  rewrite countChar_exportLine, Hlines.
  change (Ascii.eqb comma newline) with false. simpl. lia.
Qed.

